(** * ANPP protocol: header, checksums, acknowledge and packet catalog

    A shallow embedding of [src/Protocol.hpp] and [src/Protocol.cpp] of the
    Advanced Navigation ANPP driver, with the properties the specification
    states about it.

    Conventions of the embedding.
    - Fixed-width unsigned integers are [Z] values; every conversion that
      the C++ code performs to [uintN_t] is written out as a reduction
      modulo [2^N] ([u8], [u16], [u32], [u64]).
    - [float] and [double] fields are only ever moved bit for bit
      ([reinterpret_cast] in [read32]/[read64]/[write32]/[write64]); they
      are represented by their 32-bit and 64-bit patterns.
    - A decoder receives an iterator pair [(begin, end)].  The distance
      [end - begin] is the argument [len]; every dereference [begin[i]] is
      an explicit [Deref i] node of the decoder term, so that which bytes a
      decoder touches is part of its meaning.
    - An encoder writes through an output iterator into a caller-provided
      buffer: the buffer is a [list Z] and [out[i] = v] is list insertion. *)

From Stdlib Require Import ZArith Lia List Bool.
From stdpp Require Import base option list gmap.

Local Open Scope Z_scope.

(** ** Fixed-width unsigned integers *)

Definition u8 (x : Z) : Z := x mod 2 ^ 8.
Definition u16 (x : Z) : Z := x mod 2 ^ 16.
Definition u32 (x : Z) : Z := x mod 2 ^ 32.
Definition u64 (x : Z) : Z := x mod 2 ^ 64.

Definition is_u8 (x : Z) : Prop := 0 <= x < 2 ^ 8.
Definition is_u16 (x : Z) : Prop := 0 <= x < 2 ^ 16.
Definition is_u32 (x : Z) : Prop := 0 <= x < 2 ^ 32.
Definition is_u64 (x : Z) : Prop := 0 <= x < 2 ^ 64.

(** A [float x[n]] (or [uint32_t x[n]]) and a [uint8_t x[n]] array field. *)
Definition array_u32 (n : nat) (a : list Z) : Prop :=
  length a = n /\ Forall is_u32 a.
Definition array_u8 (n : nat) (a : list Z) : Prop :=
  length a = n /\ Forall is_u8 a.

(** ** Decoder computations

    [Dec A] is the computation of a value of type [A] from a byte range:
    it returns, throws, or dereferences the input iterator at an offset
    from [begin] and continues with the byte found there.  [Spin] stands
    for a [for (; begin != end; ...)] loop that is still running when its
    iteration bound is used up. *)

Inductive exn : Type :=
| length_error.

Inductive Dec (A : Type) : Type :=
| Ret (a : A)
| Throw (e : exn)
| Deref (off : Z) (k : Z -> Dec A)
| Spin.

Arguments Ret {A} a.
Arguments Throw {A} e.
Arguments Deref {A} off k.
Arguments Spin {A}.

Fixpoint bind {A B : Type} (m : Dec A) (f : A -> Dec B) : Dec B :=
  match m with
  | Ret a => f a
  | Throw e => Throw e
  | Deref off k => Deref off (fun b => bind (k b) f)
  | Spin => Spin
  end.

Notation "'let*' x ':=' m 'in' k" := (bind m (fun x => k))
  (at level 10, x name, m at level 100, k at level 200, only parsing).

(** [*(begin + off)] *)
Definition deref (off : Z) : Dec Z := Deref off Ret.

(** Result of running a decoder on an actual buffer.  A dereference
    outside of the buffer has no defined behaviour in C++; it is kept
    apart as [OutOfBounds]. *)
Inductive outcome (A : Type) : Type :=
| Value (a : A)
| Raised (e : exn)
| OutOfBounds
| Diverged.

Arguments Value {A} a.
Arguments Raised {A} e.
Arguments OutOfBounds {A}.
Arguments Diverged {A}.

Fixpoint run {A : Type} (m : Dec A) (buf : list Z) : outcome A :=
  match m with
  | Ret a => Value a
  | Throw e => Raised e
  | Deref off k =>
      if off <? 0 then OutOfBounds
      else match buf !! Z.to_nat off with
           | Some b => run (k b) buf
           | None => OutOfBounds
           end
  | Spin => Diverged
  end.

(** The offsets dereferenced, in order, when a decoder runs on [buf]. *)
Fixpoint touched {A : Type} (m : Dec A) (buf : list Z) : list Z :=
  match m with
  | Ret _ => []
  | Throw _ => []
  | Deref off k =>
      off :: (if off <? 0 then []
              else match buf !! Z.to_nat off with
                   | Some b => touched (k b) buf
                   | None => []
                   end)
  | Spin => []
  end.

(** [for (int i = from; i < from + n; ++i) body(i)], threading the value
    being built. *)
Fixpoint for_loop {St : Type} (n : nat) (i : Z) (body : Z -> St -> Dec St)
  (s : St) : Dec St :=
  match n with
  | O => Ret s
  | S n' => let* s' := body i s in for_loop n' (i + 1) body s'
  end.

(** [std::copy(begin + first, begin + first + n, dst)]: the [n] bytes read,
    in order. *)
Fixpoint copy_in (n : nat) (first : Z) : Dec (list Z) :=
  match n with
  | O => Ret []
  | S n' =>
      let* b := deref first in
      let* bs := copy_in n' (first + 1) in
      Ret (b :: bs)
  end.

(** ** Little-endian helpers (Protocol.hpp, read16 .. write64) *)

Definition read16 (it : Z) : Dec Z :=
  let* b0 := deref it in
  let* b1 := deref (it + 1) in
  Ret (u16 (Z.lor b0 (Z.shiftl b1 8))).

Definition read32 (it : Z) : Dec Z :=
  let* b0 := deref it in
  let* b1 := deref (it + 1) in
  let* b2 := deref (it + 2) in
  let* b3 := deref (it + 3) in
  Ret (Z.lor (Z.lor (Z.lor b0 (u32 (Z.shiftl b1 8)))
                    (u32 (Z.shiftl b2 16)))
             (u32 (Z.shiftl b3 24))).

Definition read64 (it : Z) : Dec Z :=
  let* b0 := deref it in
  let* b1 := deref (it + 1) in
  let* b2 := deref (it + 2) in
  let* b3 := deref (it + 3) in
  let* b4 := deref (it + 4) in
  let* b5 := deref (it + 5) in
  let* b6 := deref (it + 6) in
  let* b7 := deref (it + 7) in
  Ret (Z.lor (Z.lor (Z.lor (Z.lor (Z.lor (Z.lor (Z.lor
         b0
         (u64 (Z.shiftl b1 8)))
         (u64 (Z.shiftl b2 16)))
         (u64 (Z.shiftl b3 24)))
         (u64 (Z.shiftl b4 32)))
         (u64 (Z.shiftl b5 40)))
         (u64 (Z.shiftl b6 48)))
         (u64 (Z.shiftl b7 56))).

(** [out[i] = v] on the buffer behind the output iterator; [out] is the
    offset of the iterator in the buffer.  Writing past the end of the
    buffer is undefined in C++; here it leaves the list unchanged, and the
    statements below always assume a buffer that is large enough. *)
Definition store (buf : list Z) (out i : nat) (v : Z) : list Z :=
  <[(out + i)%nat := v]> buf.

Definition write16 (buf : list Z) (out : nat) (value : Z) : list Z :=
  let buf := store buf out 0 (Z.land value 0xFF) in
  let buf := store buf out 1 (Z.land (Z.shiftr value 8) 0xFF) in
  buf.

Definition write32 (buf : list Z) (out : nat) (value : Z) : list Z :=
  let buf := store buf out 0 (Z.land (Z.shiftr value 0) 0xFF) in
  let buf := store buf out 1 (Z.land (Z.shiftr value 8) 0xFF) in
  let buf := store buf out 2 (Z.land (Z.shiftr value 16) 0xFF) in
  let buf := store buf out 3 (Z.land (Z.shiftr value 24) 0xFF) in
  buf.

Definition write64 (buf : list Z) (out : nat) (value : Z) : list Z :=
  let buf := store buf out 1 (Z.land (Z.shiftr value 8) 0xFF) in
  let buf := store buf out 2 (Z.land (Z.shiftr value 16) 0xFF) in
  let buf := store buf out 3 (Z.land (Z.shiftr value 24) 0xFF) in
  let buf := store buf out 4 (Z.land (Z.shiftr value 32) 0xFF) in
  let buf := store buf out 5 (Z.land (Z.shiftr value 40) 0xFF) in
  let buf := store buf out 6 (Z.land (Z.shiftr value 48) 0xFF) in
  let buf := store buf out 7 (Z.land (Z.shiftr value 56) 0xFF) in
  buf.

(** [std::copy(src, src + n, out)] into the output buffer. *)
Fixpoint copy_out (buf : list Z) (out : nat) (src : list Z) : list Z :=
  match src with
  | [] => buf
  | b :: src' => copy_out (store buf out 0 b) (S out) src'
  end.

(** Storage that has been declared but not assigned yet.  Every decoder
    below assigns each field before it returns. *)
Definition unassigned (n : nat) : list Z := replicate n 0.

(** ** Payload checksum (Protocol.cpp, protocol::crc)

    [boost::crc_ccitt_type] is [crc_optimal<16, 0x1021, 0xFFFF, 0, false,
    false>]: most significant bit first, polynomial 0x1021, initial
    remainder 0xFFFF, no reflection and no final xor. *)

Fixpoint crc_shift (n : nat) (rem : Z) : Z :=
  match n with
  | O => rem
  | S n' =>
      let rem' :=
        if Z.testbit rem 15
        then Z.lxor (u16 (Z.shiftl rem 1)) 0x1021
        else u16 (Z.shiftl rem 1) in
      crc_shift n' rem'
  end.

Definition crc_process_byte (rem byte : Z) : Z :=
  crc_shift 8 (Z.lxor rem (Z.shiftl byte 8)).

(** [protocol::crc] returns the remainder as a [uint16_t]. *)
Definition crc (payload : list Z) : Z :=
  u16 (fold_left crc_process_byte payload 0xFFFF).

(** ** Packet header (Protocol.hpp, struct Header) *)

Record Header : Type := mkHeader {
  header_checksum : Z;
  packet_id : Z;
  payload_length : Z;
  payload_checksum_lsb : Z;
  payload_checksum_msb : Z
}.

Definition Header_SIZE : Z := 5.
Definition MAX_PACKET_SIZE : Z := 256 + Header_SIZE.

Definition computeHeaderChecksum (h : Header) : Z :=
  u8 (Z.lxor (packet_id h + payload_length h
              + payload_checksum_lsb h + payload_checksum_msb h) 0xFF + 1).

(** [Header::Header()] *)
Definition Header_default : Header :=
  mkHeader 1 0 0 0 0.

Section WithChecksum.
(** The header code only uses the CRC through [protocol::crc]; the
    definitions are first given over an arbitrary checksum routine. *)
Variable crc_fn : list Z -> Z.

(** [Header::Header(packet_id, begin, end)] *)
Definition Header_init_with (id : Z) (payload : list Z) : Header :=
  let len := u8 (Z.of_nat (length payload)) in
  let checksum := crc_fn payload in
  let lsb := u8 (Z.land checksum 0xFF) in
  let msb := u8 (Z.land (Z.shiftr checksum 8) 0xFF) in
  let partial := mkHeader 0 id len lsb msb in
  mkHeader (computeHeaderChecksum partial) id len lsb msb.

(** [Header::isPacketValid(begin, end)] *)
Definition isPacketValid_with (h : Header) (payload : list Z) : bool :=
  if negb (payload_length h =? Z.of_nat (length payload)) then false
  else
    let checksum := crc_fn payload in
    (payload_checksum_lsb h =? Z.land checksum 0xFF)
    && (payload_checksum_msb h =? Z.land (Z.shiftr checksum 8) 0xFF).
End WithChecksum.

Definition Header_init : Z -> list Z -> Header := Header_init_with crc.
Definition isPacketValid : Header -> list Z -> bool := isPacketValid_with crc.

Definition getPacketLength (h : Header) : Z := payload_length h + Header_SIZE.

Definition isValid (h : Header) : bool :=
  header_checksum h =? computeHeaderChecksum h.

(** ** Acknowledge (Protocol.hpp, struct Acknowledge; Protocol.cpp) *)

Inductive ACK_RESULTS : Type :=
| ACK_SUCCESS
| ACK_FAILED_PACKET_VALIDATION_CRC
| ACK_FAILED_PACKET_VALIDATION_SIZE
| ACK_FAILED_OUT_OF_RANGE
| ACK_FAILED_SYSTEM_FLASH_FAILURE
| ACK_FAILED_SYSTEM_NOT_READY
| ACK_FAILED_UNKNOWN_PACKET.

(** The enumerator values. *)
Definition ACK_value (r : ACK_RESULTS) : Z :=
  match r with
  | ACK_SUCCESS => 0
  | ACK_FAILED_PACKET_VALIDATION_CRC => 1
  | ACK_FAILED_PACKET_VALIDATION_SIZE => 2
  | ACK_FAILED_OUT_OF_RANGE => 3
  | ACK_FAILED_SYSTEM_FLASH_FAILURE => 4
  | ACK_FAILED_SYSTEM_NOT_READY => 5
  | ACK_FAILED_UNKNOWN_PACKET => 6
  end.

Definition ACK_all : list ACK_RESULTS :=
  [ACK_SUCCESS; ACK_FAILED_PACKET_VALIDATION_CRC;
   ACK_FAILED_PACKET_VALIDATION_SIZE; ACK_FAILED_OUT_OF_RANGE;
   ACK_FAILED_SYSTEM_FLASH_FAILURE; ACK_FAILED_SYSTEM_NOT_READY;
   ACK_FAILED_UNKNOWN_PACKET].

Module Acknowledge.
Definition ID : Z := 0.
Definition SIZE : Z := 4.

Record t : Type := mk {
  acked_packet_id : Z;
  acked_payload_checksum_lsb : Z;
  acked_payload_checksum_msb : Z;
  result : Z
}.

(** [sizeof(Acknowledge)], a packed struct of four bytes *)
Definition sizeof : Z := 1 + 1 + 1 + 1.

Definition isMatching (a : t) (header : Header) : bool :=
  (acked_packet_id a =? packet_id header)
  && (acked_payload_checksum_lsb a =? payload_checksum_lsb header)
  && (acked_payload_checksum_msb a =? payload_checksum_msb header).

Definition isSuccess (a : t) : bool :=
  result a =? ACK_value ACK_SUCCESS.

Definition isPacketValidationFailure (a : t) : bool :=
  (result a =? ACK_value ACK_FAILED_PACKET_VALIDATION_CRC)
  || (result a =? ACK_value ACK_FAILED_PACKET_VALIDATION_SIZE).

Definition isProtocolError (a : t) : bool :=
  (result a =? ACK_value ACK_FAILED_OUT_OF_RANGE)
  || (result a =? ACK_value ACK_FAILED_UNKNOWN_PACKET).

Definition isSystemError (a : t) : bool :=
  result a =? ACK_value ACK_FAILED_SYSTEM_FLASH_FAILURE.

Definition isNotReady (a : t) : bool :=
  result a =? ACK_value ACK_FAILED_SYSTEM_NOT_READY.

Definition unmarshal (len : Z) : Dec t :=
  if negb (len =? sizeof) then Throw length_error
  else
    let* b0 := deref 0 in
    let* b1 := deref 1 in
    let* b2 := deref 2 in
    let* b3 := deref 3 in
    Ret (mk b0 b1 b2 b3).
End Acknowledge.

(** ** Packet catalog (Protocol.hpp) *)

Module BootMode.
Definition ID : Z := 2.
Definition SIZE : Z := 1.

Record t : Type := mk { boot_mode : Z }.

Definition sizeof : Z := 1.

Definition marshal (x : t) (buf : list Z) (out : nat) : list Z :=
  store buf out 0 (boot_mode x).

Definition unmarshal (len : Z) : Dec t :=
  if negb (len =? sizeof) then Throw length_error
  else
    let* b := deref 0 in
    Ret (mk b).

(** The values the struct can hold. *)
Definition valid (x : t) : Prop := is_u8 (boot_mode x).
End BootMode.

Module DeviceInformation.
Definition ID : Z := 3.
Definition SIZE : Z := 24.

Record t : Type := mk {
  software_version : Z;
  device_id : Z;
  hardware_revision : Z;
  serial_number_part0 : Z;
  serial_number_part1 : Z;
  serial_number_part2 : Z
}.

Definition sizeof : Z := 4 + 4 + 4 + 4 + 4 + 4.

Definition unmarshal (len : Z) : Dec t :=
  if negb (len =? sizeof) then Throw length_error
  else
    let* software_version := read32 0 in
    let* device_id := read32 (0 + 4) in
    let* hardware_revision := read32 (0 + 8) in
    let* serial_number_part0 := read32 (0 + 12) in
    let* serial_number_part1 := read32 (0 + 16) in
    let* serial_number_part2 := read32 (0 + 20) in
    Ret (mk software_version device_id hardware_revision
            serial_number_part0 serial_number_part1 serial_number_part2).
End DeviceInformation.

Module SystemState.
Definition ID : Z := 20.
Definition SIZE : Z := 100.

Record t : Type := mk {
  system_status : Z;
  filter_status : Z;
  unix_time_seconds : Z;
  unix_time_microseconds : Z;
  lat_lon_z : list Z;
  velocity_ned : list Z;
  body_acceleration_xyz : list Z;
  g : Z;
  rpy : list Z;
  angular_velocity : list Z;
  lat_lon_z_stddev : list Z
}.

Definition sizeof : Z :=
  2 + 2 + 4 + 4 + 3 * 8 + 3 * 4 + 3 * 4 + 4 + 3 * 4 + 3 * 4 + 3 * 4.

Definition unmarshal (len : Z) : Dec t :=
  if negb (len =? sizeof) then Throw length_error
  else
    let* v_system_status := read16 0 in
    let* v_filter_status := read16 (0 + 2) in
    let* v_unix_time_seconds := read32 (0 + 4) in
    let* v_unix_time_microseconds := read32 (0 + 8) in
    let* v_g := read32 (0 + 60) in
    let state :=
      mk v_system_status v_filter_status v_unix_time_seconds
         v_unix_time_microseconds (unassigned 3) (unassigned 3)
         (unassigned 3) v_g (unassigned 3) (unassigned 3) (unassigned 3) in
    for_loop 3 0 (fun i state =>
      let* a := read64 (0 + 12 + 8 * i) in
      let* b := read32 (0 + 36 + 4 * i) in
      let* c := read32 (0 + 48 + 4 * i) in
      let* d := read32 (0 + 64 + 4 * i) in
      let* e := read32 (0 + 76 + 4 * i) in
      let* f := read32 (0 + 88 + 4 * i) in
      Ret (mk (system_status state) (filter_status state)
              (unix_time_seconds state) (unix_time_microseconds state)
              (<[Z.to_nat i := a]> (lat_lon_z state))
              (<[Z.to_nat i := b]> (velocity_ned state))
              (<[Z.to_nat i := c]> (body_acceleration_xyz state))
              (g state)
              (<[Z.to_nat i := d]> (rpy state))
              (<[Z.to_nat i := e]> (angular_velocity state))
              (<[Z.to_nat i := f]> (lat_lon_z_stddev state)))) state.
End SystemState.

Module UnixTime.
Definition ID : Z := 21.
Definition SIZE : Z := 8.

Record t : Type := mk { seconds : Z; microseconds : Z }.

Definition sizeof : Z := 4 + 4.

Definition unmarshal (len : Z) : Dec t :=
  if negb (len =? sizeof) then Throw length_error
  else
    let* seconds := read32 0 in
    let* microseconds := read32 (0 + 4) in
    Ret (mk seconds microseconds).
End UnixTime.

Module Status.
Definition ID : Z := 23.
Definition SIZE : Z := 4.

Record t : Type := mk { system_status : Z; filter_status : Z }.

Definition sizeof : Z := 2 + 2.

Definition unmarshal (len : Z) : Dec t :=
  if negb (len =? sizeof) then Throw length_error
  else
    let* system_status := read16 0 in
    let* filter_status := read16 (0 + 2) in
    Ret (mk system_status filter_status).
End Status.

Module GeodeticPositionStandardDeviation.
Definition ID : Z := 24.
Definition SIZE : Z := 12.

Record t : Type := mk { lat_lon_z_stddev : list Z }.

Definition sizeof : Z := 3 * 4.

Definition unmarshal (len : Z) : Dec t :=
  if negb (len =? sizeof) then Throw length_error
  else
    let* v0 := read32 (0 + 0) in
    let* v1 := read32 (0 + 4) in
    let* v2 := read32 (0 + 8) in
    Ret (mk [v0; v1; v2]).
End GeodeticPositionStandardDeviation.

Module NEDVelocityStandardDeviation.
Definition ID : Z := 25.
Definition SIZE : Z := 12.

Record t : Type := mk { ned : list Z }.

Definition sizeof : Z := 3 * 4.

Definition unmarshal (len : Z) : Dec t :=
  if negb (len =? sizeof) then Throw length_error
  else
    let* v0 := read32 (0 + 0) in
    let* v1 := read32 (0 + 4) in
    let* v2 := read32 (0 + 8) in
    Ret (mk [v0; v1; v2]).
End NEDVelocityStandardDeviation.

Module EulerOrientationStandardDeviation.
Definition ID : Z := 26.
Definition SIZE : Z := 12.

Record t : Type := mk { rpy : list Z }.

Definition sizeof : Z := 3 * 4.

Definition unmarshal (len : Z) : Dec t :=
  if negb (len =? sizeof) then Throw length_error
  else
    let* v0 := read32 (0 + 0) in
    let* v1 := read32 (0 + 4) in
    let* v2 := read32 (0 + 8) in
    Ret (mk [v0; v1; v2]).
End EulerOrientationStandardDeviation.

Module RawSensors.
Definition ID : Z := 28.
Definition SIZE : Z := 48.

Record t : Type := mk {
  accelerometers_xyz : list Z;
  gyroscope_xyz : list Z;
  magnetometer_xyz : list Z;
  imu_temperature_C : Z;
  pressure : Z;
  pressure_temperature_C : Z
}.

Definition sizeof : Z := 3 * 4 + 3 * 4 + 3 * 4 + 4 + 4 + 4.

Definition unmarshal (len : Z) : Dec t :=
  if negb (len =? sizeof) then Throw length_error
  else
    let out0 := mk (unassigned 3) (unassigned 3) (unassigned 3) 0 0 0 in
    let* out1 :=
      for_loop 3 0 (fun i out =>
        let* a := read32 (0 + 0 + 4 * i) in
        let* b := read32 (0 + 12 + 4 * i) in
        let* c := read32 (0 + 24 + 4 * i) in
        Ret (mk (<[Z.to_nat i := a]> (accelerometers_xyz out))
                (<[Z.to_nat i := b]> (gyroscope_xyz out))
                (<[Z.to_nat i := c]> (magnetometer_xyz out))
                (imu_temperature_C out) (pressure out)
                (pressure_temperature_C out))) out0 in
    let* v_imu_temperature_C := read32 (0 + 36) in
    let* v_pressure := read32 (0 + 40) in
    let* v_pressure_temperature_C := read32 (0 + 44) in
    Ret (mk (accelerometers_xyz out1) (gyroscope_xyz out1)
            (magnetometer_xyz out1)
            v_imu_temperature_C v_pressure v_pressure_temperature_C).
End RawSensors.

Module RawGNSS.
Definition ID : Z := 29.
Definition SIZE : Z := 74.

Record t : Type := mk {
  unix_time_seconds : Z;
  unix_time_microseconds : Z;
  lat_lon_z : list Z;
  velocity_ned : list Z;
  lat_lon_z_stddev : list Z;
  pitch : Z;
  yaw : Z;
  pitch_stddev : Z;
  yaw_stddev : Z;
  status : Z
}.

Definition unmarshal (len : Z) : Dec t :=
  if negb (len =? SIZE) then Throw length_error
  else
    let* v_unix_time_seconds := read32 (0 + 0) in
    let* v_unix_time_microseconds := read32 (0 + 4) in
    let out0 :=
      mk v_unix_time_seconds v_unix_time_microseconds
         (unassigned 3) (unassigned 3) (unassigned 3) 0 0 0 0 0 in
    let* out1 :=
      for_loop 3 0 (fun i out =>
        let* a := read64 (0 + 8 + 8 * i) in
        let* b := read32 (0 + 32 + 4 * i) in
        let* c := read32 (0 + 44 + 4 * i) in
        Ret (mk (unix_time_seconds out)
                (unix_time_microseconds out)
                (<[Z.to_nat i := a]> (lat_lon_z out))
                (<[Z.to_nat i := b]> (velocity_ned out))
                (<[Z.to_nat i := c]> (lat_lon_z_stddev out))
                (pitch out) (yaw out) (pitch_stddev out) (yaw_stddev out)
                (status out))) out0 in
    let* v_pitch := read32 (0 + 56) in
    let* v_yaw := read32 (0 + 60) in
    let* v_pitch_stddev := read32 (0 + 64) in
    let* v_yaw_stddev := read32 (0 + 68) in
    let* v_status := read16 (0 + 72) in
    Ret (mk (unix_time_seconds out1)
            (unix_time_microseconds out1)
            (lat_lon_z out1) (velocity_ned out1) (lat_lon_z_stddev out1)
            v_pitch v_yaw v_pitch_stddev v_yaw_stddev v_status).
End RawGNSS.

Module Satellites.
Definition ID : Z := 30.
Definition SIZE : Z := 13.

Record t : Type := mk {
  hdop : Z;
  vdop : Z;
  gps_satellite_count : Z;
  glonass_satellite_count : Z;
  beidou_satellite_count : Z;
  galileo_satellite_count : Z;
  sbas_satellite_count : Z
}.

Definition unmarshal (len : Z) : Dec t :=
  if negb (len =? SIZE) then Throw length_error
  else
    let* hdop := read32 (0 + 0) in
    let* vdop := read32 (0 + 4) in
    let* b8 := deref 8 in
    let* b9 := deref 9 in
    let* b10 := deref 10 in
    let* b11 := deref 11 in
    let* b12 := deref 12 in
    Ret (mk hdop vdop b8 b9 b10 b11 b12).
End Satellites.

Module SatelliteInfo.
Definition SIZE : Z := 7.

Record t : Type := mk {
  system : Z;
  prn : Z;
  frequencies : Z;
  elevation : Z;
  azimuth : Z;
  snr : Z
}.

(** The record decoder takes its own [begin]; it has no length check. *)
Definition unmarshal (begin : Z) : Dec t :=
  let* b0 := deref (begin + 0) in
  let* b1 := deref (begin + 1) in
  let* b2 := deref (begin + 2) in
  let* b3 := deref (begin + 3) in
  let* azimuth := read16 (begin + 4) in
  let* b6 := deref (begin + 6) in
  Ret (mk b0 b1 b2 b3 azimuth b6).
End SatelliteInfo.

Module DetailedSatellites.
Definition ID : Z := 31.
Definition MIN_SIZE : Z := 0.

(** [for (; begin != end; begin += SatelliteInfo::SIZE)
      info.push_back(...)], with [bound] iterations at most. *)
Fixpoint unmarshal_loop (bound : nat) (begin end_ : Z)
  (info : list SatelliteInfo.t) : Dec (list SatelliteInfo.t) :=
  match bound with
  | O => Spin
  | S bound' =>
      if negb (begin =? end_) then
        let* x := SatelliteInfo.unmarshal begin in
        unmarshal_loop bound' (begin + SatelliteInfo.SIZE) end_ (info ++ [x])
      else Ret info
  end.

(** [info] is the caller's vector, which the decoder appends to.  The
    remainder is the C++ one (truncated division). *)
Definition unmarshal (len : Z) (info : list SatelliteInfo.t)
  : Dec (list SatelliteInfo.t) :=
  if negb (Z.rem len SatelliteInfo.SIZE =? 0) then Throw length_error
  else unmarshal_loop (S (Z.to_nat len)) 0 len info.
End DetailedSatellites.

Module NEDVelocity.
Definition ID : Z := 35.
Definition SIZE : Z := 12.

Record t : Type := mk { ned : list Z }.

Definition unmarshal (len : Z) : Dec t :=
  if negb (len =? SIZE) then Throw length_error
  else
    let* v0 := read32 0 in
    let* v1 := read32 (0 + 4) in
    let* v2 := read32 (0 + 8) in
    Ret (mk [v0; v1; v2]).
End NEDVelocity.

Module BodyVelocity.
Definition ID : Z := 36.
Definition SIZE : Z := 12.

Record t : Type := mk { xyz : list Z }.

Definition unmarshal (len : Z) : Dec t :=
  if negb (len =? SIZE) then Throw length_error
  else
    let* v0 := read32 0 in
    let* v1 := read32 (0 + 4) in
    let* v2 := read32 (0 + 8) in
    Ret (mk [v0; v1; v2]).
End BodyVelocity.

Module Acceleration.
Definition ID : Z := 37.
Definition SIZE : Z := 12.

Record t : Type := mk { xyz : list Z }.

Definition unmarshal (len : Z) : Dec t :=
  if negb (len =? SIZE) then Throw length_error
  else
    let* v0 := read32 0 in
    let* v1 := read32 (0 + 4) in
    let* v2 := read32 (0 + 8) in
    Ret (mk [v0; v1; v2]).
End Acceleration.

Module BodyAcceleration.
Definition ID : Z := 38.
Definition SIZE : Z := 16.

Record t : Type := mk { xyz : list Z; g : Z }.

Definition unmarshal (len : Z) : Dec t :=
  if negb (len =? SIZE) then Throw length_error
  else
    let* v0 := read32 0 in
    let* v1 := read32 (0 + 4) in
    let* v2 := read32 (0 + 8) in
    let* v3 := read32 (0 + 12) in
    Ret (mk [v0; v1; v2] v3).
End BodyAcceleration.

Module QuaternionOrientation.
Definition ID : Z := 40.
Definition SIZE : Z := 16.

Record t : Type := mk { im : Z; xyz : list Z }.

Definition unmarshal (len : Z) : Dec t :=
  if negb (len =? SIZE) then Throw length_error
  else
    let* v0 := read32 (0 + 0) in
    let* v1 := read32 (0 + 4) in
    let* v2 := read32 (0 + 8) in
    let* v3 := read32 (0 + 12) in
    Ret (mk v0 [v1; v2; v3]).
End QuaternionOrientation.

Module AngularVelocity.
Definition ID : Z := 42.
Definition SIZE : Z := 12.

Record t : Type := mk { xyz : list Z }.

Definition unmarshal (len : Z) : Dec t :=
  if negb (len =? SIZE) then Throw length_error
  else
    let* v0 := read32 0 in
    let* v1 := read32 (0 + 4) in
    let* v2 := read32 (0 + 8) in
    Ret (mk [v0; v1; v2]).
End AngularVelocity.

Module AngularAcceleration.
Definition ID : Z := 43.
Definition SIZE : Z := 12.

Record t : Type := mk { xyz : list Z }.

Definition unmarshal (len : Z) : Dec t :=
  if negb (len =? SIZE) then Throw length_error
  else
    let* v0 := read32 0 in
    let* v1 := read32 (0 + 4) in
    let* v2 := read32 (0 + 8) in
    Ret (mk [v0; v1; v2]).
End AngularAcceleration.

Module LocalMagneticField.
Definition ID : Z := 50.
Definition SIZE : Z := 12.

Record t : Type := mk { xyz : list Z }.

Definition unmarshal (len : Z) : Dec t :=
  if negb (len =? SIZE) then Throw length_error
  else
    let* v0 := read32 0 in
    let* v1 := read32 (0 + 4) in
    let* v2 := read32 (0 + 8) in
    Ret (mk [v0; v1; v2]).
End LocalMagneticField.

(** [for (int i = 0; i < n; ++i) body(i)] in an encoder, threading the
    output buffer. *)
Fixpoint for_each {St : Type} (n : nat) (i : nat) (body : nat -> St -> St)
  (s : St) : St :=
  match n with
  | O => s
  | S n' => for_each n' (S i) body (body i s)
  end.

(** [a[i]] on a fixed-size array field. *)
Definition at_index (a : list Z) (i : nat) : Z := a !!! i.

Module PacketTimerPeriod.
Definition ID : Z := 180.
Definition SIZE : Z := 4.

Record t : Type := mk {
  permanent : Z;
  utc_synchronization : Z;
  period : Z
}.

Definition marshal (x : t) (buf : list Z) (out : nat) : list Z :=
  let buf := store buf out 0 (permanent x) in
  let buf := store buf out 1 (utc_synchronization x) in
  let buf := write16 buf (out + 2) (period x) in
  buf.

Definition unmarshal (len : Z) : Dec t :=
  if negb (len =? SIZE) then Throw length_error
  else
    let v_permanent := 0 in
    let* v_utc_synchronization := deref (0 + 1) in
    let* v_period := read16 (0 + 2) in
    Ret (mk v_permanent v_utc_synchronization v_period).

(** The values the struct can hold. *)
Definition valid (x : t) : Prop :=
  is_u8 (permanent x) /\ is_u8 (utc_synchronization x) /\ is_u16 (period x).
End PacketTimerPeriod.

Module PacketPeriods.
Definition ID : Z := 181.
Definition MIN_SIZE : Z := 2.
Definition PERIOD_SIZE : Z := 5.

(** [for (; begin != end; begin += PERIOD_SIZE)
      result[*begin] = read32<uint32_t>(begin + 1)], with [bound]
    iterations at most.  [std::map::operator[]] followed by assignment
    inserts the key or overwrites its value. *)
Fixpoint unmarshal_loop (bound : nat) (begin end_ : Z) (result : gmap Z Z)
  : Dec (gmap Z Z) :=
  match bound with
  | O => Spin
  | S bound' =>
      if negb (begin =? end_) then
        let* v := read32 (begin + 1) in
        let* k := deref begin in
        unmarshal_loop bound' (begin + PERIOD_SIZE) end_ (<[k := v]> result)
      else Ret result
  end.

Definition unmarshal (len : Z) : Dec (gmap Z Z) :=
  if len <? MIN_SIZE then Throw length_error
  else if negb (Z.rem (len - MIN_SIZE) PERIOD_SIZE =? 0)
  then Throw length_error
  else unmarshal_loop (S (Z.to_nat len)) (0 + MIN_SIZE) len ∅.

(** The fixed part of the packet. *)
Record t : Type := mk { permanent : Z; clear_existing : Z }.

(** [for (out += 2; begin != end; ++begin, out += PERIOD_SIZE)
      { out[0] = begin->first; write32(out + 1, begin->second); }]
    over the range of (id, period) pairs. *)
Fixpoint marshal_loop (buf : list Z) (out : nat) (periods : list (Z * Z))
  : list Z :=
  match periods with
  | [] => buf
  | (id, period) :: periods' =>
      let buf := store buf out 0 id in
      let buf := write32 buf (out + 1) period in
      marshal_loop buf (out + 5) periods'
  end.

Definition marshal (x : t) (buf : list Z) (out : nat)
  (periods : list (Z * Z)) : list Z :=
  let buf := store buf out 0 (permanent x) in
  let buf := store buf out 1 (clear_existing x) in
  marshal_loop buf (out + 2) periods.

(** The entries a [std::map<uint8_t, uint32_t>] can hold. *)
Definition valid_period (kv : Z * Z) : Prop := is_u8 kv.1 /\ is_u32 kv.2.
End PacketPeriods.

Module BaudRates.
Definition ID : Z := 182.
Definition SIZE : Z := 17.

Record t : Type := mk {
  permanent : Z;
  primary_port : Z;
  gpio : Z;
  auxiliary_rs232 : Z;
  reserved : Z
}.

Definition marshal (x : t) (buf : list Z) (out : nat) : list Z :=
  let buf := store buf out 0 (permanent x) in
  let buf := write32 buf (out + 1) (primary_port x) in
  let buf := write32 buf (out + 5) (gpio x) in
  let buf := write32 buf (out + 9) (auxiliary_rs232 x) in
  let buf := write32 buf (out + 13) 0 in
  buf.

Definition unmarshal (len : Z) : Dec t :=
  if negb (len =? SIZE) then Throw length_error
  else
    let* v_primary_port := read32 (0 + 1) in
    let* v_gpio := read32 (0 + 5) in
    let* v_auxiliary_rs232 := read32 (0 + 9) in
    Ret (mk 0 v_primary_port v_gpio v_auxiliary_rs232 0).

(** The values the struct can hold. *)
Definition valid (x : t) : Prop :=
  is_u8 (permanent x) /\ is_u32 (primary_port x) /\ is_u32 (gpio x) /\
  is_u32 (auxiliary_rs232 x) /\ is_u32 (reserved x).
End BaudRates.

Module Alignment.
Definition ID : Z := 185.
Definition SIZE : Z := 73.

Record t : Type := mk {
  permanent : Z;
  dcm : list Z;
  gnss_antenna_offset_xyz : list Z;
  odometer_offset_xyz : list Z;
  external_data_offset_xyz : list Z
}.

Definition marshal (x : t) (buf : list Z) (out : nat) : list Z :=
  let buf := store buf out 0 (permanent x) in
  let buf :=
    for_each 9 0 (fun i buf =>
      write32 buf (out + 1 + 4 * i) (at_index (dcm x) i)) buf in
  let buf :=
    for_each 3 0 (fun i buf =>
      let buf :=
        write32 buf (out + 37 + 4 * i)
                (at_index (gnss_antenna_offset_xyz x) i) in
      let buf :=
        write32 buf (out + 49 + 4 * i)
                (at_index (odometer_offset_xyz x) i) in
      let buf :=
        write32 buf (out + 61 + 4 * i)
                (at_index (external_data_offset_xyz x) i) in
      buf) buf in
  buf.

Definition unmarshal (len : Z) : Dec t :=
  if negb (len =? SIZE) then Throw length_error
  else
    let out0 :=
      mk 0 (unassigned 9) (unassigned 3) (unassigned 3) (unassigned 3) in
    let* out1 :=
      for_loop 9 0 (fun i out =>
        let* a := read32 (0 + 1 + 4 * i) in
        Ret (mk (permanent out) (<[Z.to_nat i := a]> (dcm out))
                (gnss_antenna_offset_xyz out) (odometer_offset_xyz out)
                (external_data_offset_xyz out))) out0 in
    let* out2 :=
      for_loop 3 0 (fun i out =>
        let* a := read32 (0 + 37 + 4 * i) in
        let* b := read32 (0 + 49 + 4 * i) in
        let* c := read32 (0 + 61 + 4 * i) in
        Ret (mk (permanent out) (dcm out)
                (<[Z.to_nat i := a]> (gnss_antenna_offset_xyz out))
                (<[Z.to_nat i := b]> (odometer_offset_xyz out))
                (<[Z.to_nat i := c]> (external_data_offset_xyz out)))) out1 in
    Ret out2.

(** The values the struct can hold. *)
Definition valid (x : t) : Prop :=
  is_u8 (permanent x) /\ array_u32 9 (dcm x) /\
  array_u32 3 (gnss_antenna_offset_xyz x) /\
  array_u32 3 (odometer_offset_xyz x) /\
  array_u32 3 (external_data_offset_xyz x).
End Alignment.

Module FilterOptions.
Definition ID : Z := 186.
Definition SIZE : Z := 17.

Record t : Type := mk {
  permanent : Z;
  vehicle_type : Z;
  enabled_internal_gnss : Z;
  reserved_0 : Z;
  enabled_atmospheric_altitude : Z;
  enabled_velocity_heading : Z;
  enabled_reversing_detection : Z;
  enabled_motion_analysis : Z;
  reserved_1 : list Z
}.

(** The bytes of the packed struct from [&vehicle_type] up to
    [reserved_1 + 9]. *)
Definition bytes_from_vehicle_type (x : t) : list Z :=
  [vehicle_type x; enabled_internal_gnss x; reserved_0 x;
   enabled_atmospheric_altitude x; enabled_velocity_heading x;
   enabled_reversing_detection x; enabled_motion_analysis x]
  ++ map (at_index (reserved_1 x)) (seq 0 9).

(** [std::copy(&permanent, reserved_1 + 9, out)] *)
Definition marshal (x : t) (buf : list Z) (out : nat) : list Z :=
  copy_out buf out (permanent x :: bytes_from_vehicle_type x).

(** [std::copy(begin + 1, end, &out.vehicle_type)] fills the fields that
    follow [permanent] in memory, in declaration order. *)
Definition unmarshal (len : Z) : Dec t :=
  if negb (len =? SIZE) then Throw length_error
  else
    let v_permanent := 0 in
    let* bs := copy_in (Z.to_nat (len - 1)) (0 + 1) in
    Ret (mk v_permanent (at_index bs 0) (at_index bs 1) (at_index bs 2)
            (at_index bs 3) (at_index bs 4) (at_index bs 5) (at_index bs 6)
            (drop 7 bs)).

(** The values the struct can hold. *)
Definition valid (x : t) : Prop :=
  is_u8 (permanent x) /\ is_u8 (vehicle_type x) /\
  is_u8 (enabled_internal_gnss x) /\ is_u8 (reserved_0 x) /\
  is_u8 (enabled_atmospheric_altitude x) /\
  is_u8 (enabled_velocity_heading x) /\
  is_u8 (enabled_reversing_detection x) /\
  is_u8 (enabled_motion_analysis x) /\ array_u8 9 (reserved_1 x).
End FilterOptions.

Module MagneticCalibrationValues.
Definition ID : Z := 189.
Definition SIZE : Z := 49.

Record t : Type := mk {
  permanent : Z;
  hard_iron_bias_xyz : list Z;
  soft_iron_transformation : list Z
}.

Definition marshal (x : t) (buf : list Z) (out : nat) : list Z :=
  let buf := store buf out 0 (permanent x) in
  let buf :=
    for_each 3 0 (fun i buf =>
      write32 buf (out + 1 + 4 * i) (at_index (hard_iron_bias_xyz x) i))
      buf in
  let buf :=
    for_each 9 0 (fun i buf =>
      write32 buf (out + 13 + 4 * i)
              (at_index (soft_iron_transformation x) i)) buf in
  buf.

Definition unmarshal (len : Z) : Dec t :=
  if negb (len =? SIZE) then Throw length_error
  else
    let out0 := mk 0 (unassigned 3) (unassigned 9) in
    let* out1 :=
      for_loop 3 0 (fun i out =>
        let* a := read32 (0 + 1 + 4 * i) in
        Ret (mk (permanent out) (<[Z.to_nat i := a]> (hard_iron_bias_xyz out))
                (soft_iron_transformation out))) out0 in
    let* out2 :=
      for_loop 9 0 (fun i out =>
        let* a := read32 (0 + 13 + 4 * i) in
        Ret (mk (permanent out) (hard_iron_bias_xyz out)
                (<[Z.to_nat i := a]> (soft_iron_transformation out)))) out1 in
    Ret out2.

(** The values the struct can hold. *)
Definition valid (x : t) : Prop :=
  is_u8 (permanent x) /\ array_u32 3 (hard_iron_bias_xyz x) /\
  array_u32 9 (soft_iron_transformation x).
End MagneticCalibrationValues.

Module MagneticCalibrationStatus.
Definition ID : Z := 191.
Definition SIZE : Z := 3.

Record t : Type := mk { status : Z; progress : Z; error : Z }.

(** [std::copy(begin, end, &out.status)] *)
Definition unmarshal (len : Z) : Dec t :=
  if negb (len =? SIZE) then Throw length_error
  else
    let* bs := copy_in (Z.to_nat len) 0 in
    Ret (mk (at_index bs 0) (at_index bs 1) (at_index bs 2)).
End MagneticCalibrationStatus.

Module Request.
Definition ID : Z := 1.
Definition MIN_SIZE : Z := 0.

(** [marshal(out, begin, end)]: [std::copy(begin, end, out)] *)
Definition marshal (buf : list Z) (out : nat) (ids : list Z) : list Z :=
  copy_out buf out ids.

End Request.

Module RestoreFactorySettings.
Definition ID : Z := 4.
Definition SIZE : Z := 4.

Record t : Type := mk { verification_sequence : list Z }.

(** The default member initializer. *)
Definition init : t := mk [0x1C; 0x9E; 0x42; 0x85].

Definition marshal (x : t) (buf : list Z) (out : nat) : list Z :=
  copy_out buf out (map (at_index (verification_sequence x)) (seq 0 4)).
End RestoreFactorySettings.

Module HotStartReset.
Definition ID : Z := 5.
Definition SIZE : Z := 4.

Record t : Type := mk { verification_sequence : list Z }.

(** The default member initializer. *)
Definition init : t := mk [0x7E; 0x7A; 0x05; 0x21].

Definition marshal (x : t) (buf : list Z) (out : nat) : list Z :=
  copy_out buf out (map (at_index (verification_sequence x)) (seq 0 4)).
End HotStartReset.

Module ColdStartReset.
Definition ID : Z := 5.
Definition SIZE : Z := 4.

Record t : Type := mk { verification_sequence : list Z }.

(** The default member initializer. *)
Definition init : t := mk [0xB7; 0x38; 0x5D; 0x9A].

Definition marshal (x : t) (buf : list Z) (out : nat) : list Z :=
  copy_out buf out (map (at_index (verification_sequence x)) (seq 0 4)).
End ColdStartReset.

Module MagneticCalibrationConfiguration.
Definition ID : Z := 190.
Definition SIZE : Z := 1.

Record t : Type := mk { action : Z }.

Definition marshal (x : t) (buf : list Z) (out : nat) : list Z :=
  store buf out 0 (action x).
End MagneticCalibrationConfiguration.

(** ** The fixed-size decoders of the catalog, as one family *)

Inductive fixed_packet : Type :=
| P_Acknowledge
| P_BootMode
| P_DeviceInformation
| P_SystemState
| P_UnixTime
| P_Status
| P_GeodeticPositionStandardDeviation
| P_NEDVelocityStandardDeviation
| P_EulerOrientationStandardDeviation
| P_RawSensors
| P_RawGNSS
| P_Satellites
| P_NEDVelocity
| P_BodyVelocity
| P_Acceleration
| P_BodyAcceleration
| P_QuaternionOrientation
| P_AngularVelocity
| P_AngularAcceleration
| P_LocalMagneticField
| P_PacketTimerPeriod
| P_BaudRates
| P_Alignment
| P_FilterOptions
| P_MagneticCalibrationValues
| P_MagneticCalibrationStatus.

Definition fixed_packets : list fixed_packet :=
  [P_Acknowledge; P_BootMode; P_DeviceInformation; P_SystemState; P_UnixTime;
   P_Status; P_GeodeticPositionStandardDeviation;
   P_NEDVelocityStandardDeviation; P_EulerOrientationStandardDeviation;
   P_RawSensors; P_RawGNSS; P_Satellites; P_NEDVelocity; P_BodyVelocity;
   P_Acceleration; P_BodyAcceleration; P_QuaternionOrientation;
   P_AngularVelocity; P_AngularAcceleration; P_LocalMagneticField;
   P_PacketTimerPeriod; P_BaudRates; P_Alignment; P_FilterOptions;
   P_MagneticCalibrationValues; P_MagneticCalibrationStatus].

Definition payload_of (p : fixed_packet) : Type :=
  match p with
  | P_Acknowledge => Acknowledge.t
  | P_BootMode => BootMode.t
  | P_DeviceInformation => DeviceInformation.t
  | P_SystemState => SystemState.t
  | P_UnixTime => UnixTime.t
  | P_Status => Status.t
  | P_GeodeticPositionStandardDeviation => GeodeticPositionStandardDeviation.t
  | P_NEDVelocityStandardDeviation => NEDVelocityStandardDeviation.t
  | P_EulerOrientationStandardDeviation => EulerOrientationStandardDeviation.t
  | P_RawSensors => RawSensors.t
  | P_RawGNSS => RawGNSS.t
  | P_Satellites => Satellites.t
  | P_NEDVelocity => NEDVelocity.t
  | P_BodyVelocity => BodyVelocity.t
  | P_Acceleration => Acceleration.t
  | P_BodyAcceleration => BodyAcceleration.t
  | P_QuaternionOrientation => QuaternionOrientation.t
  | P_AngularVelocity => AngularVelocity.t
  | P_AngularAcceleration => AngularAcceleration.t
  | P_LocalMagneticField => LocalMagneticField.t
  | P_PacketTimerPeriod => PacketTimerPeriod.t
  | P_BaudRates => BaudRates.t
  | P_Alignment => Alignment.t
  | P_FilterOptions => FilterOptions.t
  | P_MagneticCalibrationValues => MagneticCalibrationValues.t
  | P_MagneticCalibrationStatus => MagneticCalibrationStatus.t
  end.

(** The declared [SIZE] constant of each type. *)
Definition SIZE_of (p : fixed_packet) : Z :=
  match p with
  | P_Acknowledge => Acknowledge.SIZE
  | P_BootMode => BootMode.SIZE
  | P_DeviceInformation => DeviceInformation.SIZE
  | P_SystemState => SystemState.SIZE
  | P_UnixTime => UnixTime.SIZE
  | P_Status => Status.SIZE
  | P_GeodeticPositionStandardDeviation =>
      GeodeticPositionStandardDeviation.SIZE
  | P_NEDVelocityStandardDeviation => NEDVelocityStandardDeviation.SIZE
  | P_EulerOrientationStandardDeviation =>
      EulerOrientationStandardDeviation.SIZE
  | P_RawSensors => RawSensors.SIZE
  | P_RawGNSS => RawGNSS.SIZE
  | P_Satellites => Satellites.SIZE
  | P_NEDVelocity => NEDVelocity.SIZE
  | P_BodyVelocity => BodyVelocity.SIZE
  | P_Acceleration => Acceleration.SIZE
  | P_BodyAcceleration => BodyAcceleration.SIZE
  | P_QuaternionOrientation => QuaternionOrientation.SIZE
  | P_AngularVelocity => AngularVelocity.SIZE
  | P_AngularAcceleration => AngularAcceleration.SIZE
  | P_LocalMagneticField => LocalMagneticField.SIZE
  | P_PacketTimerPeriod => PacketTimerPeriod.SIZE
  | P_BaudRates => BaudRates.SIZE
  | P_Alignment => Alignment.SIZE
  | P_FilterOptions => FilterOptions.SIZE
  | P_MagneticCalibrationValues => MagneticCalibrationValues.SIZE
  | P_MagneticCalibrationStatus => MagneticCalibrationStatus.SIZE
  end.

Definition unmarshal_of (p : fixed_packet) : Z -> Dec (payload_of p) :=
  match p with
  | P_Acknowledge => Acknowledge.unmarshal
  | P_BootMode => BootMode.unmarshal
  | P_DeviceInformation => DeviceInformation.unmarshal
  | P_SystemState => SystemState.unmarshal
  | P_UnixTime => UnixTime.unmarshal
  | P_Status => Status.unmarshal
  | P_GeodeticPositionStandardDeviation =>
      GeodeticPositionStandardDeviation.unmarshal
  | P_NEDVelocityStandardDeviation => NEDVelocityStandardDeviation.unmarshal
  | P_EulerOrientationStandardDeviation =>
      EulerOrientationStandardDeviation.unmarshal
  | P_RawSensors => RawSensors.unmarshal
  | P_RawGNSS => RawGNSS.unmarshal
  | P_Satellites => Satellites.unmarshal
  | P_NEDVelocity => NEDVelocity.unmarshal
  | P_BodyVelocity => BodyVelocity.unmarshal
  | P_Acceleration => Acceleration.unmarshal
  | P_BodyAcceleration => BodyAcceleration.unmarshal
  | P_QuaternionOrientation => QuaternionOrientation.unmarshal
  | P_AngularVelocity => AngularVelocity.unmarshal
  | P_AngularAcceleration => AngularAcceleration.unmarshal
  | P_LocalMagneticField => LocalMagneticField.unmarshal
  | P_PacketTimerPeriod => PacketTimerPeriod.unmarshal
  | P_BaudRates => BaudRates.unmarshal
  | P_Alignment => Alignment.unmarshal
  | P_FilterOptions => FilterOptions.unmarshal
  | P_MagneticCalibrationValues => MagneticCalibrationValues.unmarshal
  | P_MagneticCalibrationStatus => MagneticCalibrationStatus.unmarshal
  end.

(** [T::unmarshal(buf.begin(), buf.end())] *)
Definition decode_range {A : Type} (unmarshal : Z -> Dec A) (buf : list Z)
  : outcome A :=
  run (unmarshal (Z.of_nat (length buf))) buf.

(** ** The header checksum as the specification words it

    Every operation is carried out on 8-bit values that wrap around. *)

Definition add8 (a b : Z) : Z := (a + b) mod 256.
Definition xor8 (a b : Z) : Z := (Z.lxor a b) mod 256.

Definition header_checksum_spec (h : Header) : Z :=
  add8 (xor8 (add8 (add8 (add8 (packet_id h) (payload_length h))
                         (payload_checksum_lsb h))
                   (payload_checksum_msb h))
             0xFF)
       1.

(** [result[id] = period] on the map that [PacketPeriods::unmarshal]
    builds. *)
Definition set_period (m : gmap Z Z) (kv : Z * Z) : gmap Z Z :=
  <[kv.1 := kv.2]> m.

(** Exactly one of a list of tests holds. *)
Definition exactly_one (bs : list bool) : Prop :=
  length (filter (fun b => b = true) bs) = 1%nat.

(** * Properties *)

(** ** Bit-level facts *)

Lemma land_255_mod (x : Z) : Z.land x 255 = x mod 256.
Proof. change 255 with (Z.ones 8). rewrite Z.land_ones by lia. reflexivity. Qed.

Lemma land_255_is_u8 (x : Z) : is_u8 (Z.land x 255).
Proof.
  rewrite land_255_mod. unfold is_u8. change (2 ^ 8) with 256.
  apply Z.mod_pos_bound. lia.
Qed.

Lemma u8_small (x : Z) : is_u8 x -> u8 x = x.
Proof. intros H. unfold u8. apply Z.mod_small. exact H. Qed.

Lemma lxor_255_mod (s : Z) : (Z.lxor s 255) mod 256 = Z.lxor (s mod 256) 255.
Proof.
  rewrite <- !land_255_mod.
  apply Z.bits_inj'. intros i Hi.
  rewrite !Z.land_spec, !Z.lxor_spec, !Z.land_spec.
  destruct (Z.testbit s i), (Z.testbit 255 i); reflexivity.
Qed.

(** ** Header *)

Lemma computeHeaderChecksum_spec (h : Header) :
  computeHeaderChecksum h = header_checksum_spec h.
Proof.
  unfold computeHeaderChecksum, header_checksum_spec, add8, xor8, u8.
  change (2 ^ 8) with 256.
  set (s := packet_id h + payload_length h + payload_checksum_lsb h
            + payload_checksum_msb h).
  rewrite (Z.add_mod_idemp_l (packet_id h + payload_length h)) by lia.
  rewrite (Z.add_mod_idemp_l (packet_id h + payload_length h
                              + payload_checksum_lsb h)) by lia.
  fold s.
  rewrite (Z.mod_small (Z.lxor (s mod 256) 255)).
  - rewrite <- lxor_255_mod. rewrite Z.add_mod_idemp_l by lia. reflexivity.
  - rewrite <- lxor_255_mod. apply Z.mod_pos_bound. lia.
Qed.

(** C8.  A header is valid exactly when its [header_checksum] is
    [((packet_id + payload_length + payload_checksum_lsb +
    payload_checksum_msb) ^ 0xFF) + 1] computed with 8-bit wrap-around. *)
Theorem isValid_iff_checksum_identity (h : Header) :
  isValid h = true <-> header_checksum h = header_checksum_spec h.
Proof.
  unfold isValid. rewrite Z.eqb_eq, computeHeaderChecksum_spec. reflexivity.
Qed.

Section HeaderOverAnyChecksum.
Variable crc_fn : list Z -> Z.

Lemma Header_init_with_length (id : Z) (payload : list Z) :
  (length payload <= 255)%nat ->
  payload_length (Header_init_with crc_fn id payload)
  = Z.of_nat (length payload).
Proof.
  intros H. cbn [Header_init_with payload_length].
  apply u8_small. unfold is_u8. change (2 ^ 8) with 256. lia.
Qed.

Lemma Header_init_with_isValid (id : Z) (payload : list Z) :
  isValid (Header_init_with crc_fn id payload) = true.
Proof. unfold isValid, Header_init_with. apply Z.eqb_refl. Qed.

Lemma Header_init_with_isPacketValid (id : Z) (payload : list Z) :
  (length payload <= 255)%nat ->
  isPacketValid_with crc_fn (Header_init_with crc_fn id payload) payload
  = true.
Proof.
  intros H. unfold isPacketValid_with.
  rewrite Header_init_with_length by exact H.
  rewrite Z.eqb_refl. cbn [negb].
  cbn [Header_init_with payload_checksum_lsb payload_checksum_msb].
  rewrite !u8_small by apply land_255_is_u8.
  rewrite !Z.eqb_refl. reflexivity.
Qed.

Lemma isPacketValid_with_length_mismatch (h : Header) (payload : list Z) :
  payload_length h <> Z.of_nat (length payload) ->
  isPacketValid_with crc_fn h payload = false.
Proof.
  intros H. unfold isPacketValid_with.
  destruct (Z.eqb_spec (payload_length h) (Z.of_nat (length payload)));
    [contradiction | reflexivity].
Qed.

Lemma isPacketValid_with_length_match (h : Header) (payload : list Z) :
  payload_length h = Z.of_nat (length payload) ->
  (isPacketValid_with crc_fn h payload = true <->
   payload_checksum_lsb h = Z.land (crc_fn payload) 0xFF /\
   payload_checksum_msb h = Z.land (Z.shiftr (crc_fn payload) 8) 0xFF).
Proof.
  intros H. unfold isPacketValid_with.
  rewrite H, Z.eqb_refl. cbn [negb].
  rewrite andb_true_iff, !Z.eqb_eq. reflexivity.
Qed.
End HeaderOverAnyChecksum.

(** C1.  A header built from a packet id and a payload of at most 255
    bytes validates, and validates that payload. *)
Theorem Header_init_valid (id : Z) (payload : list Z) :
  (length payload <= 255)%nat ->
  isValid (Header_init id payload) = true /\
  isPacketValid (Header_init id payload) payload = true.
Proof.
  intros H. split.
  - apply Header_init_with_isValid.
  - apply Header_init_with_isPacketValid. exact H.
Qed.

Lemma Header_init_valid_witness :
  (length [48; 49; 50; 51; 52; 53; 54] <= 255)%nat /\
  isValid (Header_init 5 [48; 49; 50; 51; 52; 53; 54]) = true /\
  isPacketValid (Header_init 5 [48; 49; 50; 51; 52; 53; 54])
                [48; 49; 50; 51; 52; 53; 54] = true.
Proof.
  split; [simpl; lia |].
  apply (Header_init_valid 5 [48; 49; 50; 51; 52; 53; 54]). simpl. lia.
Defined.

(** The bound on the payload matters: with 256 bytes the length field
    wraps to zero and the header does not validate its own payload. *)
Example Header_init_256_bytes :
  isPacketValid (Header_init 5 (replicate 256 0)) (replicate 256 0) = false.
Proof. vm_compute. reflexivity. Qed.

(** The default-constructed header is not valid. *)
Example Header_default_invalid :
  isValid Header_default = false /\ isPacketValid Header_default [] = false.
Proof. vm_compute. split; reflexivity. Qed.

(** C9.  A payload whose length differs from [payload_length] is refused
    whatever the checksum routine is, so the refusal does not depend on a
    checksum computation; with the right length the packet is valid exactly
    when both checksum bytes of the header are those of the payload CRC. *)
Theorem isPacketValid_characterisation (h : Header) (payload : list Z) :
  (payload_length h <> Z.of_nat (length payload) ->
   forall crc_fn, isPacketValid_with crc_fn h payload = false) /\
  (payload_length h <> Z.of_nat (length payload) ->
   isPacketValid h payload = false) /\
  (payload_length h = Z.of_nat (length payload) ->
   (isPacketValid h payload = true <->
    payload_checksum_lsb h = Z.land (crc payload) 0xFF /\
    payload_checksum_msb h = Z.land (Z.shiftr (crc payload) 8) 0xFF)).
Proof.
  split; [| split].
  - intros H crc_fn. apply isPacketValid_with_length_mismatch. exact H.
  - intros H. apply isPacketValid_with_length_mismatch. exact H.
  - intros H. apply isPacketValid_with_length_match. exact H.
Qed.

Lemma isPacketValid_characterisation_witness :
  isPacketValid (mkHeader 0 0 8 0xA7 0x88) [48; 49; 50; 51; 52; 53; 54] = false
  /\ isPacketValid (mkHeader 0 0 7 0xA7 0x88) [48; 49; 50; 51; 52; 53; 54]
     = true.
Proof.
  split.
  - apply (isPacketValid_characterisation
             (mkHeader 0 0 8 0xA7 0x88) [48; 49; 50; 51; 52; 53; 54]).
    simpl. lia.
  - apply (isPacketValid_characterisation
             (mkHeader 0 0 7 0xA7 0x88) [48; 49; 50; 51; 52; 53; 54]).
    + reflexivity.
    + vm_compute. split; reflexivity.
Defined.

(** ** Acknowledge *)

(** C5.  An acknowledge matches a header exactly when the packet id and
    both checksum bytes agree; starting from a match, changing any single
    one of the three fields breaks it. *)
Theorem isMatching_iff (a : Acknowledge.t) (h : Header) :
  (Acknowledge.isMatching a h = true <->
   Acknowledge.acked_packet_id a = packet_id h /\
   Acknowledge.acked_payload_checksum_lsb a = payload_checksum_lsb h /\
   Acknowledge.acked_payload_checksum_msb a = payload_checksum_msb h) /\
  (Acknowledge.isMatching a h = true ->
   forall v : Z,
     (v <> Acknowledge.acked_packet_id a ->
      Acknowledge.isMatching
        (Acknowledge.mk v (Acknowledge.acked_payload_checksum_lsb a)
           (Acknowledge.acked_payload_checksum_msb a) (Acknowledge.result a))
        h = false) /\
     (v <> Acknowledge.acked_payload_checksum_lsb a ->
      Acknowledge.isMatching
        (Acknowledge.mk (Acknowledge.acked_packet_id a) v
           (Acknowledge.acked_payload_checksum_msb a) (Acknowledge.result a))
        h = false) /\
     (v <> Acknowledge.acked_payload_checksum_msb a ->
      Acknowledge.isMatching
        (Acknowledge.mk (Acknowledge.acked_packet_id a)
           (Acknowledge.acked_payload_checksum_lsb a) v (Acknowledge.result a))
        h = false)).
Proof.
  assert (Hiff : Acknowledge.isMatching a h = true <->
   Acknowledge.acked_packet_id a = packet_id h /\
   Acknowledge.acked_payload_checksum_lsb a = payload_checksum_lsb h /\
   Acknowledge.acked_payload_checksum_msb a = payload_checksum_msb h).
  { unfold Acknowledge.isMatching.
    rewrite !andb_true_iff, !Z.eqb_eq. tauto. }
  split; [exact Hiff |].
  intros Hm v. apply Hiff in Hm. destruct Hm as (H1 & H2 & H3).
  unfold Acknowledge.isMatching. cbn [Acknowledge.acked_packet_id
    Acknowledge.acked_payload_checksum_lsb
    Acknowledge.acked_payload_checksum_msb].
  repeat split; intros Hv.
  - destruct (Z.eqb_spec v (packet_id h)); [congruence | reflexivity].
  - destruct (Z.eqb_spec v (payload_checksum_lsb h)); [congruence |].
    rewrite andb_false_r. reflexivity.
  - destruct (Z.eqb_spec v (payload_checksum_msb h)); [congruence |].
    rewrite andb_false_r. reflexivity.
Qed.

Lemma isMatching_iff_witness :
  Acknowledge.isMatching (Acknowledge.mk 2 0xFF 0xFF 0) (Header_init 1 [])
  = false /\
  Acknowledge.isMatching (Acknowledge.mk 1 0x10 0xFF 0) (Header_init 1 [])
  = false /\
  Acknowledge.isMatching (Acknowledge.mk 1 0xFF 0x10 0) (Header_init 1 [])
  = false.
Proof.
  pose proof (isMatching_iff (Acknowledge.mk 1 0xFF 0xFF 0) (Header_init 1 []))
    as [_ H].
  specialize (H eq_refl).
  split; [| split].
  - apply (H 2). simpl. lia.
  - apply (H 0x10). simpl. lia.
  - apply (H 0x10). simpl. lia.
Defined.

(** C4.  On the seven result codes 0..6 exactly one of the five
    classification predicates holds, and each predicate holds for its own
    codes only. *)
Theorem ack_predicates_partition (a : Acknowledge.t) :
  (0 <= Acknowledge.result a <= 6 ->
   exactly_one [Acknowledge.isSuccess a;
                Acknowledge.isPacketValidationFailure a;
                Acknowledge.isProtocolError a;
                Acknowledge.isSystemError a;
                Acknowledge.isNotReady a]) /\
  (Acknowledge.isSuccess a = true <->
   Acknowledge.result a = ACK_value ACK_SUCCESS) /\
  (Acknowledge.isPacketValidationFailure a = true <->
   Acknowledge.result a = ACK_value ACK_FAILED_PACKET_VALIDATION_CRC \/
   Acknowledge.result a = ACK_value ACK_FAILED_PACKET_VALIDATION_SIZE) /\
  (Acknowledge.isProtocolError a = true <->
   Acknowledge.result a = ACK_value ACK_FAILED_OUT_OF_RANGE \/
   Acknowledge.result a = ACK_value ACK_FAILED_UNKNOWN_PACKET) /\
  (Acknowledge.isPacketValidationFailure a = true ->
   Acknowledge.isProtocolError a = false) /\
  (Acknowledge.isSystemError a = true <->
   Acknowledge.result a = ACK_value ACK_FAILED_SYSTEM_FLASH_FAILURE) /\
  (Acknowledge.isNotReady a = true <->
   Acknowledge.result a = ACK_value ACK_FAILED_SYSTEM_NOT_READY).
Proof.
  destruct a as [i l m r].
  unfold Acknowledge.isSuccess, Acknowledge.isPacketValidationFailure,
    Acknowledge.isProtocolError, Acknowledge.isSystemError,
    Acknowledge.isNotReady.
  cbn [Acknowledge.result ACK_value].
  split; [| split; [| split; [| split; [| split; [| split]]]]].
  - intros Hrange.
    assert (Hr : r = 0 \/ r = 1 \/ r = 2 \/ r = 3 \/ r = 4 \/ r = 5 \/ r = 6)
      by lia.
    destruct Hr as [-> | [-> | [-> | [-> | [-> | [-> | ->]]]]]];
      vm_compute; reflexivity.
  - apply Z.eqb_eq.
  - rewrite orb_true_iff, !Z.eqb_eq. reflexivity.
  - rewrite orb_true_iff, !Z.eqb_eq. reflexivity.
  - rewrite orb_true_iff, !Z.eqb_eq.
    intros [-> | ->]; reflexivity.
  - apply Z.eqb_eq.
  - apply Z.eqb_eq.
Qed.

Lemma ack_predicates_partition_witness :
  exactly_one [Acknowledge.isSuccess (Acknowledge.mk 1 0 0 6);
               Acknowledge.isPacketValidationFailure (Acknowledge.mk 1 0 0 6);
               Acknowledge.isProtocolError (Acknowledge.mk 1 0 0 6);
               Acknowledge.isSystemError (Acknowledge.mk 1 0 0 6);
               Acknowledge.isNotReady (Acknowledge.mk 1 0 0 6)].
Proof.
  apply (ack_predicates_partition (Acknowledge.mk 1 0 0 6)). simpl. lia.
Defined.

(** ** Decoders: the length check *)

Ltac length_check len sz :=
  destruct (Z.eqb_spec len sz) as [-> | ?];
  [exfalso; vm_compute in *; congruence | reflexivity].

Lemma unmarshal_of_wrong_length (p : fixed_packet) (len : Z) :
  len <> SIZE_of p -> unmarshal_of p len = Throw length_error.
Proof.
  intros H. destruct p; cbn [unmarshal_of SIZE_of] in *.
  - unfold Acknowledge.unmarshal. length_check len Acknowledge.sizeof.
  - unfold BootMode.unmarshal. length_check len BootMode.sizeof.
  - unfold DeviceInformation.unmarshal.
    length_check len DeviceInformation.sizeof.
  - unfold SystemState.unmarshal. length_check len SystemState.sizeof.
  - unfold UnixTime.unmarshal. length_check len UnixTime.sizeof.
  - unfold Status.unmarshal. length_check len Status.sizeof.
  - unfold GeodeticPositionStandardDeviation.unmarshal.
    length_check len GeodeticPositionStandardDeviation.sizeof.
  - unfold NEDVelocityStandardDeviation.unmarshal.
    length_check len NEDVelocityStandardDeviation.sizeof.
  - unfold EulerOrientationStandardDeviation.unmarshal.
    length_check len EulerOrientationStandardDeviation.sizeof.
  - unfold RawSensors.unmarshal. length_check len RawSensors.sizeof.
  - unfold RawGNSS.unmarshal. length_check len RawGNSS.SIZE.
  - unfold Satellites.unmarshal. length_check len Satellites.SIZE.
  - unfold NEDVelocity.unmarshal. length_check len NEDVelocity.SIZE.
  - unfold BodyVelocity.unmarshal. length_check len BodyVelocity.SIZE.
  - unfold Acceleration.unmarshal. length_check len Acceleration.SIZE.
  - unfold BodyAcceleration.unmarshal. length_check len BodyAcceleration.SIZE.
  - unfold QuaternionOrientation.unmarshal.
    length_check len QuaternionOrientation.SIZE.
  - unfold AngularVelocity.unmarshal. length_check len AngularVelocity.SIZE.
  - unfold AngularAcceleration.unmarshal.
    length_check len AngularAcceleration.SIZE.
  - unfold LocalMagneticField.unmarshal.
    length_check len LocalMagneticField.SIZE.
  - unfold PacketTimerPeriod.unmarshal.
    length_check len PacketTimerPeriod.SIZE.
  - unfold BaudRates.unmarshal. length_check len BaudRates.SIZE.
  - unfold Alignment.unmarshal. length_check len Alignment.SIZE.
  - unfold FilterOptions.unmarshal. length_check len FilterOptions.SIZE.
  - unfold MagneticCalibrationValues.unmarshal.
    length_check len MagneticCalibrationValues.SIZE.
  - unfold MagneticCalibrationStatus.unmarshal.
    length_check len MagneticCalibrationStatus.SIZE.
Qed.

Lemma DetailedSatellites_wrong_length (len : Z) (info : list SatelliteInfo.t) :
  ~ (SatelliteInfo.SIZE | len) ->
  DetailedSatellites.unmarshal len info = Throw length_error.
Proof.
  intros H. unfold DetailedSatellites.unmarshal.
  destruct (Z.eqb_spec (Z.rem len SatelliteInfo.SIZE) 0) as [E | E];
    [| reflexivity].
  apply Z.rem_divide in E; [contradiction | discriminate].
Qed.

Lemma PacketPeriods_too_short (len : Z) :
  len < PacketPeriods.MIN_SIZE ->
  PacketPeriods.unmarshal len = Throw length_error.
Proof.
  intros H. unfold PacketPeriods.unmarshal.
  destruct (Z.ltb_spec len PacketPeriods.MIN_SIZE); [reflexivity | lia].
Qed.

Lemma PacketPeriods_wrong_length (len : Z) :
  ~ (PacketPeriods.PERIOD_SIZE | len - PacketPeriods.MIN_SIZE) ->
  PacketPeriods.unmarshal len = Throw length_error.
Proof.
  intros H. unfold PacketPeriods.unmarshal.
  destruct (Z.ltb_spec len PacketPeriods.MIN_SIZE); [reflexivity |].
  destruct (Z.eqb_spec
              (Z.rem (len - PacketPeriods.MIN_SIZE) PacketPeriods.PERIOD_SIZE)
              0) as [E | E]; [| reflexivity].
  apply Z.rem_divide in E; [contradiction | discriminate].
Qed.

(** C3.  Every fixed-size decoder, given a length other than its [SIZE]
    (one byte fewer and one byte more in particular), and every
    variable-size decoder, given a length that is not its base size plus a
    whole number of records, is the computation that throws
    [length_error] at once: run on any buffer it raises the error and
    dereferences nothing. *)
Theorem decoders_check_length_first :
  (forall (p : fixed_packet) (len : Z),
      len <> SIZE_of p -> unmarshal_of p len = Throw length_error) /\
  (forall p : fixed_packet,
      unmarshal_of p (SIZE_of p - 1) = Throw length_error /\
      unmarshal_of p (SIZE_of p + 1) = Throw length_error) /\
  (forall (len : Z) (info : list SatelliteInfo.t),
      ~ (SatelliteInfo.SIZE | len - DetailedSatellites.MIN_SIZE) ->
      DetailedSatellites.unmarshal len info = Throw length_error) /\
  (forall len : Z,
      ~ (PacketPeriods.PERIOD_SIZE | len - PacketPeriods.MIN_SIZE) ->
      PacketPeriods.unmarshal len = Throw length_error) /\
  (forall (p : fixed_packet) (buf : list Z),
      Z.of_nat (length buf) <> SIZE_of p ->
      decode_range (unmarshal_of p) buf = Raised length_error /\
      touched (unmarshal_of p (Z.of_nat (length buf))) buf = []) /\
  (forall (buf : list Z) (info : list SatelliteInfo.t),
      ~ (SatelliteInfo.SIZE
         | Z.of_nat (length buf) - DetailedSatellites.MIN_SIZE) ->
      decode_range (fun len => DetailedSatellites.unmarshal len info) buf
      = Raised length_error /\
      touched (DetailedSatellites.unmarshal (Z.of_nat (length buf)) info) buf
      = []) /\
  (forall buf : list Z,
      ~ (PacketPeriods.PERIOD_SIZE
         | Z.of_nat (length buf) - PacketPeriods.MIN_SIZE) ->
      decode_range PacketPeriods.unmarshal buf = Raised length_error /\
      touched (PacketPeriods.unmarshal (Z.of_nat (length buf))) buf = []).
Proof.
  split; [| split; [| split; [| split; [| split; [| split]]]]].
  - exact unmarshal_of_wrong_length.
  - intros p. split; apply unmarshal_of_wrong_length; lia.
  - intros len info H. apply DetailedSatellites_wrong_length.
    unfold DetailedSatellites.MIN_SIZE in H. rewrite Z.sub_0_r in H. exact H.
  - exact PacketPeriods_wrong_length.
  - intros p buf H. unfold decode_range.
    rewrite unmarshal_of_wrong_length by exact H. split; reflexivity.
  - intros buf info H. unfold decode_range.
    rewrite DetailedSatellites_wrong_length; [split; reflexivity |].
    unfold DetailedSatellites.MIN_SIZE in H. rewrite Z.sub_0_r in H. exact H.
  - intros buf H. unfold decode_range.
    rewrite PacketPeriods_wrong_length by exact H. split; reflexivity.
Qed.

Lemma decoders_check_length_first_witness :
  unmarshal_of P_SystemState 99 = Throw length_error /\
  DetailedSatellites.unmarshal 8 [] = Throw length_error /\
  PacketPeriods.unmarshal 8 = Throw length_error /\
  decode_range (unmarshal_of P_Acknowledge) [1; 2; 3; 4; 5] = Raised length_error /\
  decode_range (fun len => DetailedSatellites.unmarshal len []) [1; 2; 3]
  = Raised length_error /\
  decode_range PacketPeriods.unmarshal [1; 2; 3] = Raised length_error.
Proof.
  destruct decoders_check_length_first as (H1 & _ & H3 & H4 & H5 & H6 & H7).
  split; [| split; [| split; [| split; [| split]]]].
  - apply (H1 P_SystemState 99). vm_compute. discriminate.
  - apply (H3 8 []). change (~ (7 | 8)). intros [q Hq]. lia.
  - apply (H4 8). change (~ (5 | 6)). intros [q Hq]. lia.
  - apply (H5 P_Acknowledge [1; 2; 3; 4; 5]). vm_compute. discriminate.
  - apply (H6 [1; 2; 3] []). change (~ (7 | 3)). intros [q Hq]. lia.
  - apply (H7 [1; 2; 3]). change (~ (5 | 1)). intros [q Hq]. lia.
Defined.


(** C6.  The two variable-size decoders accept their smallest input and
    return nothing decoded for it: [PacketPeriods::unmarshal] on the two
    prefix bytes gives the empty map, [DetailedSatellites::unmarshal] on no
    bytes leaves the vector as it was (empty when it was empty).  They
    throw [length_error] on fewer than two bytes or a remainder that is not
    a multiple of five, respectively on a length that is not a multiple of
    seven. *)
Theorem variable_decoders_smallest_input :
  PacketPeriods.unmarshal 2 = Ret ∅ /\
  (forall b0 b1 : Z, decode_range PacketPeriods.unmarshal [b0; b1] = Value ∅) /\
  (forall len : Z, len < 2 -> PacketPeriods.unmarshal len = Throw length_error)
  /\
  (forall len : Z,
      ~ (5 | len - 2) -> PacketPeriods.unmarshal len = Throw length_error) /\
  (forall info : list SatelliteInfo.t,
      DetailedSatellites.unmarshal 0 info = Ret info) /\
  decode_range (fun len => DetailedSatellites.unmarshal len []) [] = Value [] /\
  (forall (len : Z) (info : list SatelliteInfo.t),
      ~ (7 | len) -> DetailedSatellites.unmarshal len info = Throw length_error).
Proof.
  split; [| split; [| split; [| split; [| split; [| split]]]]].
  - reflexivity.
  - intros b0 b1. reflexivity.
  - exact PacketPeriods_too_short.
  - exact PacketPeriods_wrong_length.
  - intros info. reflexivity.
  - reflexivity.
  - exact DetailedSatellites_wrong_length.
Qed.

Lemma variable_decoders_smallest_input_witness :
  PacketPeriods.unmarshal 1 = Throw length_error /\
  PacketPeriods.unmarshal 6 = Throw length_error /\
  DetailedSatellites.unmarshal 6 [] = Throw length_error.
Proof.
  destruct variable_decoders_smallest_input as (_ & _ & H3 & H4 & _ & _ & H7).
  split; [| split].
  - apply (H3 1). lia.
  - apply (H4 6). change (~ (5 | 4)). intros [q Hq]. lia.
  - apply (H7 6 []). intros [q Hq]. lia.
Defined.

(** A buffer of known length is the list of its elements. *)
Ltac explode_buffer buf H :=
  repeat (destruct buf as [| ? buf]; [discriminate H |];
          cbn [length] in H; apply Nat.succ_inj in H);
  destruct buf; [| discriminate H]; clear H.

Ltac run_decoder :=
  cbv - [Z.lor Z.land Z.shiftl Z.shiftr u16 u32 u64].

(** C7.  The decoders of the five configuration packets that start with a
    [permanent] byte return [permanent = 0] on every buffer of the right
    length, whatever that buffer holds. *)
Theorem unmarshal_permanent_is_zero (buf : list Z) :
  (Z.of_nat (length buf) = PacketTimerPeriod.SIZE ->
   exists v, decode_range PacketTimerPeriod.unmarshal buf = Value v /\
             PacketTimerPeriod.permanent v = 0) /\
  (Z.of_nat (length buf) = BaudRates.SIZE ->
   exists v, decode_range BaudRates.unmarshal buf = Value v /\
             BaudRates.permanent v = 0) /\
  (Z.of_nat (length buf) = Alignment.SIZE ->
   exists v, decode_range Alignment.unmarshal buf = Value v /\
             Alignment.permanent v = 0) /\
  (Z.of_nat (length buf) = FilterOptions.SIZE ->
   exists v, decode_range FilterOptions.unmarshal buf = Value v /\
             FilterOptions.permanent v = 0) /\
  (Z.of_nat (length buf) = MagneticCalibrationValues.SIZE ->
   exists v, decode_range MagneticCalibrationValues.unmarshal buf = Value v /\
             MagneticCalibrationValues.permanent v = 0).
Proof.
  split; [| split; [| split; [| split]]]; intros H.
  - assert (H' : length buf = 4%nat)
      by (unfold PacketTimerPeriod.SIZE in H; lia).
    clear H. explode_buffer buf H'.
    eexists. split; [run_decoder; reflexivity | reflexivity].
  - assert (H' : length buf = 17%nat) by (unfold BaudRates.SIZE in H; lia).
    clear H. explode_buffer buf H'.
    eexists. split; [run_decoder; reflexivity | reflexivity].
  - assert (H' : length buf = 73%nat) by (unfold Alignment.SIZE in H; lia).
    clear H. explode_buffer buf H'.
    eexists. split; [run_decoder; reflexivity | reflexivity].
  - assert (H' : length buf = 17%nat) by (unfold FilterOptions.SIZE in H; lia).
    clear H. explode_buffer buf H'.
    eexists. split; [run_decoder; reflexivity | reflexivity].
  - assert (H' : length buf = 49%nat)
      by (unfold MagneticCalibrationValues.SIZE in H; lia).
    clear H. explode_buffer buf H'.
    eexists. split; [run_decoder; reflexivity | reflexivity].
Qed.

Lemma unmarshal_permanent_is_zero_witness :
  exists v,
    decode_range BaudRates.unmarshal
      [1; 1; 2; 3; 4; 5; 6; 7; 8; 9; 10; 11; 12; 0; 0; 0; 0] = Value v /\
    BaudRates.permanent v = 0.
Proof.
  apply (unmarshal_permanent_is_zero
           [1; 1; 2; 3; 4; 5; 6; 7; 8; 9; 10; 11; 12; 0; 0; 0; 0]).
  reflexivity.
Defined.

(** ** Little-endian recomposition *)

Lemma testbit_above (n v i : Z) :
  0 <= n -> 0 <= v < 2 ^ n -> n <= i -> Z.testbit v i = false.
Proof.
  intros Hn Hv Hi. rewrite <- (Z.mod_small v (2 ^ n)) by exact Hv.
  apply Z.mod_pow2_bits_high. lia.
Qed.

Lemma testbit_byte_placed (v k s i : Z) :
  0 <= k -> 0 <= i ->
  Z.testbit (Z.shiftl (Z.land (Z.shiftr v k) 255) s) i
  = (s <=? i) && (i - s <? 8) && Z.testbit v (i - s + k).
Proof.
  intros Hk Hi. rewrite Z.shiftl_spec by exact Hi.
  destruct (Z.leb_spec s i) as [Hs | Hs].
  - rewrite Z.land_spec, Z.shiftr_spec by lia.
    change 255 with (Z.ones 8). rewrite Z.testbit_ones_nonneg by lia.
    cbn [andb]. apply andb_comm.
  - apply Z.testbit_neg_r. lia.
Qed.

Lemma testbit_low_byte (v i : Z) :
  0 <= i -> Z.testbit (Z.land v 255) i = (i <? 8) && Z.testbit v i.
Proof.
  intros Hi. rewrite Z.land_spec. change 255 with (Z.ones 8).
  rewrite Z.testbit_ones_nonneg by lia. apply andb_comm.
Qed.

Ltac split_index :=
  repeat match goal with
         | |- context [?a <=? ?b] => destruct (Z.leb_spec a b); try lia
         | |- context [?a <? ?b] => destruct (Z.ltb_spec a b); try lia
         end.

Ltac same_bit n Hv :=
  cbn [andb orb]; rewrite ?orb_false_r; cbn [andb orb];
  first [ reflexivity
        | f_equal; lia
        | symmetry; apply (testbit_above n); [lia | exact Hv | lia] ].

Lemma le16_recompose (v : Z) :
  is_u16 v ->
  u16 (Z.lor (Z.land v 255) (Z.shiftl (Z.land (Z.shiftr v 8) 255) 8)) = v.
Proof.
  intros Hv. apply Z.bits_inj'. intros i Hi.
  unfold u16. rewrite Z.testbit_mod_pow2 by lia.
  rewrite Z.lor_spec, testbit_low_byte, testbit_byte_placed by lia.
  split_index; same_bit 16 Hv.
Qed.

Lemma le32_recompose (v : Z) :
  is_u32 v ->
  Z.lor (Z.lor (Z.lor (Z.land (Z.shiftr v 0) 255)
                      (u32 (Z.shiftl (Z.land (Z.shiftr v 8) 255) 8)))
               (u32 (Z.shiftl (Z.land (Z.shiftr v 16) 255) 16)))
        (u32 (Z.shiftl (Z.land (Z.shiftr v 24) 255) 24)) = v.
Proof.
  intros Hv. apply Z.bits_inj'. intros i Hi.
  unfold u32. rewrite !Z.lor_spec, !Z.testbit_mod_pow2 by lia.
  rewrite Z.shiftr_0_r, testbit_low_byte, !testbit_byte_placed by lia.
  split_index; same_bit 32 Hv.
Qed.

Lemma le64_low_byte_lost (v : Z) :
  is_u64 v ->
  Z.lor (Z.lor (Z.lor (Z.lor (Z.lor (Z.lor (Z.lor
    0
    (u64 (Z.shiftl (Z.land (Z.shiftr v 8) 255) 8)))
    (u64 (Z.shiftl (Z.land (Z.shiftr v 16) 255) 16)))
    (u64 (Z.shiftl (Z.land (Z.shiftr v 24) 255) 24)))
    (u64 (Z.shiftl (Z.land (Z.shiftr v 32) 255) 32)))
    (u64 (Z.shiftl (Z.land (Z.shiftr v 40) 255) 40)))
    (u64 (Z.shiftl (Z.land (Z.shiftr v 48) 255) 48)))
    (u64 (Z.shiftl (Z.land (Z.shiftr v 56) 255) 56))
  = Z.shiftl (Z.shiftr v 8) 8.
Proof.
  intros Hv. apply Z.bits_inj'. intros i Hi.
  unfold u64. rewrite !Z.lor_spec, !Z.testbit_mod_pow2 by lia.
  rewrite !testbit_byte_placed by lia.
  rewrite Z.testbit_0_l.
  rewrite Z.shiftl_spec by lia.
  destruct (Z.ltb_spec i 8).
  - rewrite (Z.testbit_neg_r _ (i - 8)) by lia.
    split_index; reflexivity.
  - rewrite Z.shiftr_spec by lia.
    replace (i - 8 + 8) with i by lia.
    split_index; same_bit 64 Hv.
Qed.

Lemma low_byte_of_shifted (x : Z) : Z.land (Z.shiftl x 8) 255 = 0.
Proof.
  apply Z.bits_inj'. intros i Hi.
  rewrite testbit_low_byte, Z.shiftl_spec, Z.testbit_0_l by lia.
  destruct (Z.ltb_spec i 8); [| reflexivity].
  cbn [andb]. apply Z.testbit_neg_r. lia.
Qed.

(** ** write64 *)

Lemma write64_frame (buf : list Z) (out : nat) (value : Z) (i : nat) :
  ~ (out + 1 <= i <= out + 7)%nat -> write64 buf out value !! i = buf !! i.
Proof.
  intros H. unfold write64, store.
  rewrite !list_lookup_insert_ne by lia. reflexivity.
Qed.

Lemma write64_written (buf : list Z) (out : nat) (value : Z) (k : nat) :
  (1 <= k <= 7)%nat -> (out + k < length buf)%nat ->
  write64 buf out value !! (out + k)%nat
  = Some (Z.land (Z.shiftr value (8 * Z.of_nat k)) 0xFF).
Proof.
  intros Hk Hlen. unfold write64, store.
  assert (Hcases : (k = 1 \/ k = 2 \/ k = 3 \/ k = 4 \/ k = 5 \/ k = 6
                    \/ k = 7)%nat) by lia.
  destruct Hcases as [-> | [-> | [-> | [-> | [-> | [-> | ->]]]]]];
    rewrite ?list_lookup_insert_ne by lia;
    (rewrite list_lookup_insert_eq by (rewrite ?length_insert; lia));
    reflexivity.
Qed.

Lemma read64_after_write64 (value : Z) :
  is_u64 value ->
  run (read64 0) (write64 (replicate 8 0) 0 value)
  = Value (Z.shiftl (Z.shiftr value 8) 8).
Proof.
  intros Hv. run_decoder. rewrite le64_low_byte_lost by exact Hv. reflexivity.
Qed.

(** C10.  [write64] stores the bytes at indices 1 to 7 of its output and
    leaves every other byte, index 0 in particular, as it was.  Hence a
    64-bit value written into a zeroed buffer is read back by [read64] with
    its low byte cleared, which is not the value written when that byte is
    not zero. *)
Theorem write64_never_writes_byte_0 :
  (forall (buf : list Z) (out : nat) (value : Z),
      write64 buf out value !! (out + 0)%nat = buf !! (out + 0)%nat) /\
  (forall (buf : list Z) (out : nat) (value : Z) (i : nat),
      ~ (out + 1 <= i <= out + 7)%nat ->
      write64 buf out value !! i = buf !! i) /\
  (forall (buf : list Z) (out : nat) (value : Z) (k : nat),
      (1 <= k <= 7)%nat -> (out + k < length buf)%nat ->
      write64 buf out value !! (out + k)%nat
      = Some (Z.land (Z.shiftr value (8 * Z.of_nat k)) 0xFF)) /\
  (forall value : Z,
      is_u64 value ->
      run (read64 0) (write64 (replicate 8 0) 0 value)
      = Value (Z.shiftl (Z.shiftr value 8) 8)) /\
  (forall value : Z,
      is_u64 value -> Z.land value 0xFF <> 0 ->
      run (read64 0) (write64 (replicate 8 0) 0 value) <> Value value).
Proof.
  split; [| split; [| split; [| split]]].
  - intros buf out value. apply write64_frame. lia.
  - exact write64_frame.
  - exact write64_written.
  - exact read64_after_write64.
  - intros value Hv Hlow Heq.
    rewrite read64_after_write64 in Heq by exact Hv.
    injection Heq as Heq. apply Hlow.
    rewrite <- Heq. apply low_byte_of_shifted.
Qed.

Lemma write64_never_writes_byte_0_witness :
  write64 [9; 9; 9; 9; 9; 9; 9; 9; 9] 0 0x0807060504030201 !! 8%nat
  = Some 9 /\
  write64 [9; 9; 9; 9; 9; 9; 9; 9; 9] 0 0x0807060504030201 !! 1%nat
  = Some 2 /\
  run (read64 0) (write64 (replicate 8 0) 0 0x0807060504030201)
  = Value 0x0807060504030200 /\
  run (read64 0) (write64 (replicate 8 0) 0 0x0807060504030201)
  <> Value 0x0807060504030201.
Proof.
  destruct write64_never_writes_byte_0 as (_ & H2 & H3 & H4 & H5).
  split; [| split; [| split]].
  - apply (H2 [9; 9; 9; 9; 9; 9; 9; 9; 9] 0%nat 0x0807060504030201 8%nat).
    simpl. lia.
  - apply (H3 [9; 9; 9; 9; 9; 9; 9; 9; 9] 0%nat 0x0807060504030201 1%nat).
    + lia.
    + simpl. lia.
  - apply (H4 0x0807060504030201). unfold is_u64. lia.
  - apply (H5 0x0807060504030201).
    + unfold is_u64. lia.
    + vm_compute. discriminate.
Defined.

(** ** Encoding and decoding again

    The fixed-size structs of Protocol.hpp that have both [marshal] and
    [unmarshal] are [BootMode], [PacketTimerPeriod], [BaudRates],
    [Alignment], [FilterOptions] and [MagneticCalibrationValues].  The
    other encoders ([Request], the reset and factory-restore packets,
    [MagneticCalibrationConfiguration]) have no decoder, and
    [PacketPeriods] is of variable size. *)

Ltac explode_array a :=
  match goal with
  | H : array_u32 _ a |- _ =>
      let Hlen := fresh "Hlen" in
      let Hall := fresh "Hall" in
      destruct H as [Hlen Hall]; explode_buffer a Hlen;
      repeat (apply Forall_cons in Hall; destruct Hall as [? Hall]);
      clear Hall
  | H : array_u8 _ a |- _ =>
      let Hlen := fresh "Hlen" in
      let Hall := fresh "Hall" in
      destruct H as [Hlen Hall]; explode_buffer a Hlen; clear Hall
  end.

(** C2, as the code has it.  Marshalling a valid value into a buffer of
    the packet size and unmarshalling that buffer gives the value back,
    except that the decoders set [permanent] (and [BaudRates] its
    [reserved] field) to zero; [BootMode] has no such field and comes back
    unchanged. *)
Theorem marshal_unmarshal_roundtrip :
  (forall (x : BootMode.t) (buf : list Z),
      BootMode.valid x -> length buf = 1%nat ->
      decode_range BootMode.unmarshal (BootMode.marshal x buf 0) = Value x) /\
  (forall (x : PacketTimerPeriod.t) (buf : list Z),
      PacketTimerPeriod.valid x -> length buf = 4%nat ->
      decode_range PacketTimerPeriod.unmarshal
        (PacketTimerPeriod.marshal x buf 0)
      = Value (PacketTimerPeriod.mk 0
                 (PacketTimerPeriod.utc_synchronization x)
                 (PacketTimerPeriod.period x))) /\
  (forall (x : BaudRates.t) (buf : list Z),
      BaudRates.valid x -> length buf = 17%nat ->
      decode_range BaudRates.unmarshal (BaudRates.marshal x buf 0)
      = Value (BaudRates.mk 0 (BaudRates.primary_port x) (BaudRates.gpio x)
                 (BaudRates.auxiliary_rs232 x) 0)) /\
  (forall (x : Alignment.t) (buf : list Z),
      Alignment.valid x -> length buf = 73%nat ->
      decode_range Alignment.unmarshal (Alignment.marshal x buf 0)
      = Value (Alignment.mk 0 (Alignment.dcm x)
                 (Alignment.gnss_antenna_offset_xyz x)
                 (Alignment.odometer_offset_xyz x)
                 (Alignment.external_data_offset_xyz x))) /\
  (forall (x : FilterOptions.t) (buf : list Z),
      FilterOptions.valid x -> length buf = 17%nat ->
      decode_range FilterOptions.unmarshal (FilterOptions.marshal x buf 0)
      = Value (FilterOptions.mk 0 (FilterOptions.vehicle_type x)
                 (FilterOptions.enabled_internal_gnss x)
                 (FilterOptions.reserved_0 x)
                 (FilterOptions.enabled_atmospheric_altitude x)
                 (FilterOptions.enabled_velocity_heading x)
                 (FilterOptions.enabled_reversing_detection x)
                 (FilterOptions.enabled_motion_analysis x)
                 (FilterOptions.reserved_1 x))) /\
  (forall (x : MagneticCalibrationValues.t) (buf : list Z),
      MagneticCalibrationValues.valid x -> length buf = 49%nat ->
      decode_range MagneticCalibrationValues.unmarshal
        (MagneticCalibrationValues.marshal x buf 0)
      = Value (MagneticCalibrationValues.mk 0
                 (MagneticCalibrationValues.hard_iron_bias_xyz x)
                 (MagneticCalibrationValues.soft_iron_transformation x))).
Proof.
  split; [| split; [| split; [| split; [| split]]]].
  - intros [b] buf Hx Hlen. explode_buffer buf Hlen. reflexivity.
  - intros [p u per] buf (Hp & Hu & Hper) Hlen.
    cbn [PacketTimerPeriod.permanent PacketTimerPeriod.utc_synchronization
         PacketTimerPeriod.period] in *.
    explode_buffer buf Hlen. run_decoder.
    rewrite le16_recompose by assumption. reflexivity.
  - intros [p pp gp aux res] buf (Hp & Hpp & Hgp & Haux & Hres) Hlen.
    cbn [BaudRates.permanent BaudRates.primary_port BaudRates.gpio
         BaudRates.auxiliary_rs232 BaudRates.reserved] in *.
    explode_buffer buf Hlen. run_decoder.
    rewrite !le32_recompose by assumption. reflexivity.
  - intros [p dcm gnss odo ext] buf (Hp & Hdcm & Hgnss & Hodo & Hext) Hlen.
    cbn [Alignment.permanent Alignment.dcm Alignment.gnss_antenna_offset_xyz
         Alignment.odometer_offset_xyz Alignment.external_data_offset_xyz]
      in *.
    explode_array dcm. explode_array gnss. explode_array odo.
    explode_array ext. explode_buffer buf Hlen. run_decoder.
    rewrite !le32_recompose by assumption. reflexivity.
  - intros [p vt gn r0 aa vh rd ma r1] buf
      (Hp & Hvt & Hgn & Hr0 & Haa & Hvh & Hrd & Hma & Hr1) Hlen.
    cbn [FilterOptions.reserved_1] in Hr1.
    explode_array r1. explode_buffer buf Hlen. reflexivity.
  - intros [p hard soft] buf (Hp & Hhard & Hsoft) Hlen.
    cbn [MagneticCalibrationValues.permanent
         MagneticCalibrationValues.hard_iron_bias_xyz
         MagneticCalibrationValues.soft_iron_transformation] in *.
    explode_array hard. explode_array soft. explode_buffer buf Hlen.
    run_decoder.
    rewrite !le32_recompose by assumption. reflexivity.
Qed.

Lemma marshal_unmarshal_roundtrip_witness :
  decode_range BaudRates.unmarshal
    (BaudRates.marshal (BaudRates.mk 1 0x04030201 0x08070605 0x0c0b0a09 7)
       (replicate 17 0) 0)
  = Value (BaudRates.mk 0 0x04030201 0x08070605 0x0c0b0a09 0).
Proof.
  apply (marshal_unmarshal_roundtrip).
  - unfold BaudRates.valid, is_u8, is_u32. simpl. lia.
  - reflexivity.
Defined.

(** C2 as stated does not hold: a valid [PacketTimerPeriod] with
    [permanent = 1] does not come back from its own encoding. *)
Lemma roundtrip_loses_permanent :
  PacketTimerPeriod.valid (PacketTimerPeriod.mk 1 0 0x1234) /\
  decode_range PacketTimerPeriod.unmarshal
    (PacketTimerPeriod.marshal (PacketTimerPeriod.mk 1 0 0x1234)
       (replicate 4 0) 0)
  <> Value (PacketTimerPeriod.mk 1 0 0x1234).
Proof.
  split.
  - unfold PacketTimerPeriod.valid, is_u8, is_u16. simpl. lia.
  - vm_compute. discriminate.
Defined.

(** ** Decoders on well-sized input

    The length checks are not vacuous: on a buffer of the right size every
    decoder returns a value, the loops of the variable-size decoders end
    within their iteration bound, and no byte outside of the buffer is
    dereferenced. *)

Lemma run_bind {A B : Type} (m : Dec A) (f : A -> Dec B) (buf : list Z) :
  run (bind m f) buf
  = match run m buf with
    | Value a => run (f a) buf
    | Raised e => Raised e
    | OutOfBounds => OutOfBounds
    | Diverged => Diverged
    end.
Proof.
  induction m as [a | e | off k IH |]; cbn [bind run]; try reflexivity.
  destruct (off <? 0); [reflexivity |].
  destruct (buf !! Z.to_nat off) as [b |]; [apply IH | reflexivity].
Qed.

Lemma run_deref (buf : list Z) (off : Z) :
  0 <= off < Z.of_nat (length buf) ->
  exists b, run (deref off) buf = Value b.
Proof.
  intros H. unfold deref. cbn [run].
  destruct (Z.ltb_spec off 0); [lia |].
  destruct (lookup_lt_is_Some_2 buf (Z.to_nat off)) as [b Hb]; [lia |].
  rewrite Hb. exists b. reflexivity.
Qed.

Ltac step_deref buf :=
  rewrite run_bind;
  match goal with
  | |- context [run (deref ?off) buf] =>
      let b := fresh "b" in
      let Hb := fresh "Hb" in
      destruct (run_deref buf off) as [b Hb]; [lia |]; rewrite Hb
  end.

Lemma run_read16 (buf : list Z) (off : Z) :
  0 <= off -> off + 2 <= Z.of_nat (length buf) ->
  exists v, run (read16 off) buf = Value v.
Proof.
  intros H0 H1. unfold read16. do 2 step_deref buf. eexists. reflexivity.
Qed.

Lemma run_read32 (buf : list Z) (off : Z) :
  0 <= off -> off + 4 <= Z.of_nat (length buf) ->
  exists v, run (read32 off) buf = Value v.
Proof.
  intros H0 H1. unfold read32. do 4 step_deref buf. eexists. reflexivity.
Qed.

Lemma run_SatelliteInfo (buf : list Z) (begin : Z) :
  0 <= begin -> begin + SatelliteInfo.SIZE <= Z.of_nat (length buf) ->
  exists x, run (SatelliteInfo.unmarshal begin) buf = Value x.
Proof.
  unfold SatelliteInfo.SIZE. intros H0 H1. unfold SatelliteInfo.unmarshal.
  do 4 step_deref buf.
  rewrite run_bind.
  destruct (run_read16 buf (begin + 4)) as [az Haz]; [lia | lia |].
  rewrite Haz. step_deref buf. eexists. reflexivity.
Qed.

Lemma DetailedSatellites_loop_total (buf : list Z) (k : nat) :
  forall (bound : nat) (begin : Z) (info : list SatelliteInfo.t),
    0 <= begin ->
    Z.of_nat (length buf) = begin + SatelliteInfo.SIZE * Z.of_nat k ->
    (k < bound)%nat ->
    exists out,
      run (DetailedSatellites.unmarshal_loop bound begin
             (Z.of_nat (length buf)) info) buf = Value out /\
      length out = (length info + k)%nat.
Proof.
  unfold SatelliteInfo.SIZE.
  induction k as [| k IH]; intros bound begin info H0 Hlen Hb;
    (destruct bound as [| bound]; [lia |]);
    cbn [DetailedSatellites.unmarshal_loop].
  - destruct (Z.eqb_spec begin (Z.of_nat (length buf))); [| lia].
    exists info. split; [reflexivity | lia].
  - destruct (Z.eqb_spec begin (Z.of_nat (length buf))); [lia |].
    cbn [negb]. rewrite run_bind.
    destruct (run_SatelliteInfo buf begin) as [x Hx];
      [lia | unfold SatelliteInfo.SIZE; lia |].
    rewrite Hx.
    destruct (IH bound (begin + SatelliteInfo.SIZE) (info ++ [x]))
      as [out [Hout Hn]]; [unfold SatelliteInfo.SIZE; lia .. | lia |].
    exists out. split; [exact Hout |].
    rewrite Hn, length_app. cbn [length]. lia.
Qed.

Lemma DetailedSatellites_total (buf : list Z) (info : list SatelliteInfo.t)
  (k : nat) :
  length buf = (7 * k)%nat ->
  exists out,
    decode_range (fun len => DetailedSatellites.unmarshal len info) buf
    = Value out /\
    length out = (length info + k)%nat.
Proof.
  intros H. unfold decode_range, DetailedSatellites.unmarshal.
  assert (E : Z.rem (Z.of_nat (length buf)) SatelliteInfo.SIZE = 0).
  { apply Z.rem_divide; [discriminate |]. exists (Z.of_nat k).
    unfold SatelliteInfo.SIZE. lia. }
  rewrite E. cbn [Z.eqb negb].
  apply DetailedSatellites_loop_total; unfold SatelliteInfo.SIZE; lia.
Qed.

Lemma PacketPeriods_loop_total (buf : list Z) (k : nat) :
  forall (bound : nat) (begin : Z) (result : gmap Z Z),
    0 <= begin ->
    Z.of_nat (length buf) = begin + PacketPeriods.PERIOD_SIZE * Z.of_nat k ->
    (k < bound)%nat ->
    exists out,
      run (PacketPeriods.unmarshal_loop bound begin
             (Z.of_nat (length buf)) result) buf = Value out.
Proof.
  unfold PacketPeriods.PERIOD_SIZE.
  induction k as [| k IH]; intros bound begin result H0 Hlen Hb;
    (destruct bound as [| bound]; [lia |]);
    cbn [PacketPeriods.unmarshal_loop].
  - destruct (Z.eqb_spec begin (Z.of_nat (length buf))); [| lia].
    exists result. reflexivity.
  - destruct (Z.eqb_spec begin (Z.of_nat (length buf))); [lia |].
    cbn [negb]. rewrite run_bind.
    destruct (run_read32 buf (begin + 1)) as [v Hv]; [lia | lia |].
    rewrite Hv. step_deref buf.
    apply IH; unfold PacketPeriods.PERIOD_SIZE; lia.
Qed.

Lemma PacketPeriods_total (buf : list Z) (k : nat) :
  length buf = (2 + 5 * k)%nat ->
  exists out, decode_range PacketPeriods.unmarshal buf = Value out.
Proof.
  intros H. unfold decode_range, PacketPeriods.unmarshal.
  destruct (Z.ltb_spec (Z.of_nat (length buf)) PacketPeriods.MIN_SIZE);
    [unfold PacketPeriods.MIN_SIZE in *; lia |].
  assert (E : Z.rem (Z.of_nat (length buf) - PacketPeriods.MIN_SIZE)
                PacketPeriods.PERIOD_SIZE = 0).
  { apply Z.rem_divide; [discriminate |]. exists (Z.of_nat k).
    unfold PacketPeriods.MIN_SIZE, PacketPeriods.PERIOD_SIZE. lia. }
  rewrite E. cbn [Z.eqb negb].
  apply (PacketPeriods_loop_total buf k);
    unfold PacketPeriods.MIN_SIZE, PacketPeriods.PERIOD_SIZE; lia.
Qed.

(** Every fixed-size decoder returns a value on a buffer of its size, and
    dereferences offsets inside that buffer only. *)
Lemma unmarshal_of_exact_size (p : fixed_packet) (buf : list Z) :
  Z.of_nat (length buf) = SIZE_of p ->
  (exists v, decode_range (unmarshal_of p) buf = Value v) /\
  Forall (fun off => 0 <= off < SIZE_of p)
         (touched (unmarshal_of p (Z.of_nat (length buf))) buf).
Proof.
  intros H.
  assert (H' : length buf = Z.to_nat (SIZE_of p)) by lia.
  unfold decode_range. rewrite H. clear H.
  destruct p; vm_compute in H'; explode_buffer buf H';
    (split; [eexists; run_decoder; reflexivity |]);
    match goal with
    | |- Forall _ ?l =>
        let l' := eval cbv - [Z.lor Z.land Z.shiftl Z.shiftr u16 u32 u64] in l in
        change l with l'
    end;
    repeat (constructor; [vm_compute; split; [discriminate | reflexivity] |]);
    constructor.
Qed.

(** ** The examples of the repository's tests *)

Example crc_0123456 :
  crc [48; 49; 50; 51; 52; 53; 54] = 0x88A7.
Proof. vm_compute. reflexivity. Qed.

Example header_of_0123456 :
  Header_init 5 [48; 49; 50; 51; 52; 53; 54] = mkHeader 0xC5 5 7 0xA7 0x88.
Proof. vm_compute. reflexivity. Qed.

Example header_all_zero_is_valid : isValid (mkHeader 0 0 0 0 0) = true.
Proof. reflexivity. Qed.

Example isPacketValid_wrong_checksum :
  isPacketValid (mkHeader 1 0 7 0xA7 0x88) [48; 49; 50; 51; 52; 53; 55]
  = false.
Proof. vm_compute. reflexivity. Qed.

Example ack_code_7_is_unclassified :
  let a := Acknowledge.mk 1 0 0 7 in
  Acknowledge.isSuccess a = false /\
  Acknowledge.isPacketValidationFailure a = false /\
  Acknowledge.isProtocolError a = false /\
  Acknowledge.isSystemError a = false /\
  Acknowledge.isNotReady a = false.
Proof. vm_compute. repeat split; reflexivity. Qed.

Example Acknowledge_unmarshal_example :
  decode_range Acknowledge.unmarshal [1; 2; 3; 0] = Value (Acknowledge.mk 1 2 3 0).
Proof. vm_compute. reflexivity. Qed.

Example DetailedSatellites_unmarshal_example :
  decode_range (fun len => DetailedSatellites.unmarshal len [])
    [1; 2; 3; 4; 2; 1; 5; 6; 7; 8; 9; 4; 3; 10]
  = Value [SatelliteInfo.mk 1 2 3 4 0x0102 5;
           SatelliteInfo.mk 6 7 8 9 0x0304 10].
Proof. vm_compute. reflexivity. Qed.

Example PacketTimerPeriod_marshal_example :
  PacketTimerPeriod.marshal (PacketTimerPeriod.mk 1 2 0x0403) (replicate 4 0) 0
  = [1; 2; 3; 4].
Proof. vm_compute. reflexivity. Qed.

Example PacketTimerPeriod_unmarshal_example :
  decode_range PacketTimerPeriod.unmarshal [1; 2; 3; 4]
  = Value (PacketTimerPeriod.mk 0 2 0x0403).
Proof. vm_compute. reflexivity. Qed.

Example PacketPeriods_unmarshal_example :
  decode_range PacketPeriods.unmarshal [1; 1; 1; 1; 2; 3; 4; 2; 5; 6; 7; 8]
  = Value (<[2 := 0x08070605]> (<[1 := 0x04030201]> ∅)).
Proof. vm_compute. reflexivity. Qed.

Example BaudRates_marshal_example :
  BaudRates.marshal (BaudRates.mk 1 0x04030201 0x08070605 0x0c0b0a09 0)
    (replicate 17 9) 0
  = [1; 1; 2; 3; 4; 5; 6; 7; 8; 9; 10; 11; 12; 0; 0; 0; 0].
Proof. vm_compute. reflexivity. Qed.

Example FilterOptions_marshal_example :
  FilterOptions.marshal
    (FilterOptions.mk 1 2 3 0 5 6 7 8 (replicate 9 0)) (replicate 17 9) 0
  = [1; 2; 3; 0; 5; 6; 7; 8; 0; 0; 0; 0; 0; 0; 0; 0; 0].
Proof. vm_compute. reflexivity. Qed.

Example FilterOptions_unmarshal_example :
  decode_range FilterOptions.unmarshal
    [1; 2; 3; 0; 5; 6; 7; 8; 0; 0; 0; 0; 0; 0; 0; 0; 0]
  = Value (FilterOptions.mk 0 2 3 0 5 6 7 8 (replicate 9 0)).
Proof. vm_compute. reflexivity. Qed.

(** * Further properties of the code *)

(** ** Header: the longitudinal redundancy check *)

Lemma lxor_255_complement (x : Z) : 0 <= x < 256 -> Z.lxor x 255 = 255 - x.
Proof.
  intros Hx.
  assert (Hdisj : Z.land x (Z.lxor x 255) = 0).
  { apply Z.bits_inj'. intros i Hi.
    rewrite Z.land_spec, Z.lxor_spec, Z.testbit_0_l.
    destruct (Z.testbit x i) eqn:E; [| reflexivity].
    destruct (Z.ltb_spec i 8).
    - change 255 with (Z.ones 8). rewrite Z.testbit_ones_nonneg by lia.
      destruct (Z.ltb_spec i 8); [reflexivity | lia].
    - rewrite (testbit_above 8 x i) in E by lia. discriminate. }
  apply Z.add_nocarry_lxor in Hdisj.
  rewrite <- Z.lxor_assoc, Z.lxor_nilpotent, Z.lxor_0_l in Hdisj.
  lia.
Qed.

Lemma computeHeaderChecksum_negates_sum (h : Header) :
  computeHeaderChecksum h
  = (- (packet_id h + payload_length h + payload_checksum_lsb h
        + payload_checksum_msb h)) mod 256.
Proof.
  unfold computeHeaderChecksum, u8. change (2 ^ 8) with 256.
  set (s := packet_id h + payload_length h + payload_checksum_lsb h
            + payload_checksum_msb h).
  rewrite <- Z.add_mod_idemp_l by lia.
  rewrite lxor_255_mod.
  rewrite lxor_255_complement by (apply Z.mod_pos_bound; lia).
  pose proof (Z.mod_pos_bound s 256 ltac:(lia)).
  Z.div_mod_to_equations. lia.
Qed.

Lemma isValid_iff_bytes_sum_to_zero (h : Header) :
  is_u8 (header_checksum h) ->
  (isValid h = true <->
   (header_checksum h + packet_id h + payload_length h
    + payload_checksum_lsb h + payload_checksum_msb h) mod 256 = 0).
Proof.
  unfold is_u8. change (2 ^ 8) with 256. intros Hc.
  unfold isValid. rewrite Z.eqb_eq, computeHeaderChecksum_negates_sum.
  set (s := packet_id h + payload_length h + payload_checksum_lsb h
            + payload_checksum_msb h).
  replace (header_checksum h + packet_id h + payload_length h
           + payload_checksum_lsb h + payload_checksum_msb h)
    with (header_checksum h + s) by (unfold s; lia).
  split; intros H; Z.div_mod_to_equations; lia.
Qed.

(** X1.  The header checksum makes the five header bytes sum to zero
    modulo 256: a header whose checksum field is a byte is valid exactly
    when they do. *)
Theorem header_valid_iff_bytes_sum_to_zero (h : Header) :
  is_u8 (header_checksum h) ->
  (isValid h = true <->
   (header_checksum h + packet_id h + payload_length h
    + payload_checksum_lsb h + payload_checksum_msb h) mod 256 = 0).
Proof. exact (isValid_iff_bytes_sum_to_zero h). Qed.

Lemma header_valid_iff_bytes_sum_to_zero_witness :
  isValid (mkHeader 0xC5 5 7 0xA7 0x88) = true <->
  (0xC5 + 5 + 7 + 0xA7 + 0x88) mod 256 = 0.
Proof.
  apply (header_valid_iff_bytes_sum_to_zero (mkHeader 0xC5 5 7 0xA7 0x88)).
  unfold is_u8. simpl. lia.
Defined.

Lemma sum_shift_not_zero (s old new : Z) :
  is_u8 old -> is_u8 new -> new <> old ->
  (s + old) mod 256 = 0 -> (s + new) mod 256 <> 0.
Proof.
  unfold is_u8. change (2 ^ 8) with 256. intros Ho Hn Hne H1 H2.
  Z.div_mod_to_equations. lia.
Qed.

Ltac sum_side Hvalid Hnew :=
  first [ assumption
        | rewrite <- Hvalid; f_equal; lia
        | rewrite <- Hnew; f_equal; lia ].

(** X2.  A valid header of bytes stops being valid when any single one of
    its five fields is replaced by a different byte. *)
Theorem header_detects_single_field_change (h : Header) (v : Z) :
  isValid h = true -> is_u8 (header_checksum h) -> is_u8 v ->
  (v <> header_checksum h ->
   isValid (mkHeader v (packet_id h) (payload_length h)
              (payload_checksum_lsb h) (payload_checksum_msb h)) = false) /\
  (is_u8 (packet_id h) -> v <> packet_id h ->
   isValid (mkHeader (header_checksum h) v (payload_length h)
              (payload_checksum_lsb h) (payload_checksum_msb h)) = false) /\
  (is_u8 (payload_length h) -> v <> payload_length h ->
   isValid (mkHeader (header_checksum h) (packet_id h) v
              (payload_checksum_lsb h) (payload_checksum_msb h)) = false) /\
  (is_u8 (payload_checksum_lsb h) -> v <> payload_checksum_lsb h ->
   isValid (mkHeader (header_checksum h) (packet_id h) (payload_length h)
              v (payload_checksum_msb h)) = false) /\
  (is_u8 (payload_checksum_msb h) -> v <> payload_checksum_msb h ->
   isValid (mkHeader (header_checksum h) (packet_id h) (payload_length h)
              (payload_checksum_lsb h) v) = false).
Proof.
  intros Hvalid Hc Hv.
  apply isValid_iff_bytes_sum_to_zero in Hvalid; [| exact Hc].
  destruct h as [c i l lo hi]. cbn [header_checksum packet_id payload_length
    payload_checksum_lsb payload_checksum_msb] in *.
  repeat apply conj; intros; apply not_true_is_false; intros Hnew;
    apply isValid_iff_bytes_sum_to_zero in Hnew;
    cbn [header_checksum packet_id payload_length
         payload_checksum_lsb payload_checksum_msb] in *; try assumption.
  - apply (sum_shift_not_zero (i + l + lo + hi) c v); sum_side Hvalid Hnew.
  - apply (sum_shift_not_zero (c + l + lo + hi) i v); sum_side Hvalid Hnew.
  - apply (sum_shift_not_zero (c + i + lo + hi) l v); sum_side Hvalid Hnew.
  - apply (sum_shift_not_zero (c + i + l + hi) lo v); sum_side Hvalid Hnew.
  - apply (sum_shift_not_zero (c + i + l + lo) hi v); sum_side Hvalid Hnew.
Qed.

Lemma header_detects_single_field_change_witness :
  isValid (mkHeader 0xC5 5 8 0xA7 0x88) = false.
Proof.
  apply (header_detects_single_field_change (mkHeader 0xC5 5 7 0xA7 0x88) 8);
    try reflexivity; unfold is_u8; simpl; lia.
Defined.

(** X3.  The default-constructed header validates neither itself nor any
    payload. *)
Theorem Header_default_validates_nothing :
  isValid Header_default = false /\
  forall payload : list Z, isPacketValid Header_default payload = false.
Proof.
  split; [reflexivity |].
  intros [| b payload]; [vm_compute; reflexivity |].
  apply isPacketValid_with_length_mismatch.
  cbn [Header_default payload_length length]. lia.
Qed.

(** X4.  A header built from a payload validates that payload exactly when
    the payload has at most 255 bytes: beyond that the length field has
    wrapped; the header checksum is valid in both cases. *)
Theorem Header_init_validates_payload_iff_short (id : Z) (payload : list Z) :
  isValid (Header_init id payload) = true /\
  payload_length (Header_init id payload)
  = Z.of_nat (length payload) mod 256 /\
  (isPacketValid (Header_init id payload) payload = true <->
   (length payload <= 255)%nat).
Proof.
  split; [apply Header_init_with_isValid |].
  split; [reflexivity |].
  split.
  - intros H.
    destruct (le_dec (length payload) 255) as [Hle | Hgt]; [exact Hle |].
    unfold isPacketValid, Header_init in H.
    rewrite isPacketValid_with_length_mismatch in H; [discriminate |].
    cbn [Header_init_with payload_length]. unfold u8. change (2 ^ 8) with 256.
    pose proof (Z.mod_pos_bound (Z.of_nat (length payload)) 256 ltac:(lia)).
    lia.
  - apply Header_init_with_isPacketValid.
Qed.

(** X5.  The fields of a constructed header are bytes, the packet id is
    the one given, and the packet length it announces is below
    [MAX_PACKET_SIZE]. *)
Theorem Header_init_well_formed (id : Z) (payload : list Z) :
  is_u8 id ->
  let h := Header_init id payload in
  packet_id h = id /\
  is_u8 (header_checksum h) /\ is_u8 (packet_id h) /\
  is_u8 (payload_length h) /\ is_u8 (payload_checksum_lsb h) /\
  is_u8 (payload_checksum_msb h) /\
  Header_SIZE <= getPacketLength h < MAX_PACKET_SIZE.
Proof.
  intros Hid h.
  assert (Hmod : forall x, is_u8 (u8 x)).
  { intros x. unfold is_u8, u8. apply Z.mod_pos_bound. lia. }
  subst h. unfold getPacketLength, MAX_PACKET_SIZE, Header_SIZE.
  cbn [Header_init Header_init_with header_checksum packet_id payload_length
       payload_checksum_lsb payload_checksum_msb].
  pose proof (Hmod (Z.of_nat (length payload))) as Hl.
  unfold is_u8 in Hl. change (2 ^ 8) with 256 in Hl.
  split; [reflexivity |].
  split; [apply Hmod |].
  split; [exact Hid |].
  split; [apply Hmod |].
  split; [apply Hmod |].
  split; [apply Hmod |].
  lia.
Qed.

Lemma Header_init_well_formed_witness :
  packet_id (Header_init 5 [48; 49]) = 5 /\
  getPacketLength (Header_init 5 [48; 49]) = 7.
Proof.
  pose proof (Header_init_well_formed 5 [48; 49]) as H.
  split.
  - apply H. unfold is_u8. lia.
  - reflexivity.
Defined.

(** ** Acknowledge: result codes outside of the enumeration *)

Ltac known_code :=
  subst; vm_compute;
  split; [lia | split; [discriminate | intros H; exfalso; apply H; split; discriminate]].

(** X6.  For every result byte at most one of the five classification
    predicates holds, and none holds exactly when the byte is not one of
    the seven codes 0..6. *)
Theorem ack_predicates_at_most_one (a : Acknowledge.t) :
  let tests := [Acknowledge.isSuccess a;
                Acknowledge.isPacketValidationFailure a;
                Acknowledge.isProtocolError a;
                Acknowledge.isSystemError a;
                Acknowledge.isNotReady a] in
  (length (filter (fun b => b = true) tests) <= 1)%nat /\
  (tests = [false; false; false; false; false] <->
   ~ (0 <= Acknowledge.result a <= 6)).
Proof.
  destruct a as [i l m r].
  unfold Acknowledge.isSuccess, Acknowledge.isPacketValidationFailure,
    Acknowledge.isProtocolError, Acknowledge.isSystemError,
    Acknowledge.isNotReady.
  cbn [Acknowledge.result ACK_value].
  destruct (Z.eqb_spec r 0); [known_code |].
  destruct (Z.eqb_spec r 1); [known_code |].
  destruct (Z.eqb_spec r 2); [known_code |].
  destruct (Z.eqb_spec r 3); [known_code |].
  destruct (Z.eqb_spec r 4); [known_code |].
  destruct (Z.eqb_spec r 5); [known_code |].
  destruct (Z.eqb_spec r 6); [known_code |].
  split; [vm_compute; lia |].
  split; [intros _; lia | reflexivity].
Qed.

(** ** The little-endian helpers at an arbitrary position *)

Lemma run_deref_Some (buf : list Z) (off b : Z) :
  0 <= off -> buf !! Z.to_nat off = Some b -> run (deref off) buf = Value b.
Proof.
  intros H0 Hb. unfold deref. cbn [run].
  destruct (Z.ltb_spec off 0); [lia |]. rewrite Hb. reflexivity.
Qed.

Lemma run_read16_bytes (buf : list Z) (off b0 b1 : Z) :
  0 <= off ->
  buf !! Z.to_nat off = Some b0 ->
  buf !! Z.to_nat (off + 1) = Some b1 ->
  run (read16 off) buf = Value (u16 (Z.lor b0 (Z.shiftl b1 8))).
Proof.
  intros H0 E0 E1. unfold read16.
  rewrite run_bind, (run_deref_Some buf off b0) by assumption.
  rewrite run_bind, (run_deref_Some buf (off + 1) b1) by (assumption || lia).
  reflexivity.
Qed.

Lemma run_read32_bytes (buf : list Z) (off b0 b1 b2 b3 : Z) :
  0 <= off ->
  buf !! Z.to_nat off = Some b0 ->
  buf !! Z.to_nat (off + 1) = Some b1 ->
  buf !! Z.to_nat (off + 2) = Some b2 ->
  buf !! Z.to_nat (off + 3) = Some b3 ->
  run (read32 off) buf
  = Value (Z.lor (Z.lor (Z.lor b0 (u32 (Z.shiftl b1 8)))
                        (u32 (Z.shiftl b2 16)))
                 (u32 (Z.shiftl b3 24))).
Proof.
  intros H0 E0 E1 E2 E3. unfold read32.
  rewrite run_bind, (run_deref_Some buf off b0) by assumption.
  rewrite run_bind, (run_deref_Some buf (off + 1) b1) by (assumption || lia).
  rewrite run_bind, (run_deref_Some buf (off + 2) b2) by (assumption || lia).
  rewrite run_bind, (run_deref_Some buf (off + 3) b3) by (assumption || lia).
  reflexivity.
Qed.

Lemma length_write16 (buf : list Z) (out : nat) (v : Z) :
  length (write16 buf out v) = length buf.
Proof. unfold write16, store. rewrite !length_insert. reflexivity. Qed.

Lemma length_write32 (buf : list Z) (out : nat) (v : Z) :
  length (write32 buf out v) = length buf.
Proof. unfold write32, store. rewrite !length_insert. reflexivity. Qed.

Lemma write16_frame (buf : list Z) (out : nat) (v : Z) (i : nat) :
  ~ (out <= i < out + 2)%nat -> write16 buf out v !! i = buf !! i.
Proof.
  intros H. unfold write16, store.
  rewrite !list_lookup_insert_ne by lia. reflexivity.
Qed.

Lemma write32_frame (buf : list Z) (out : nat) (v : Z) (i : nat) :
  ~ (out <= i < out + 4)%nat -> write32 buf out v !! i = buf !! i.
Proof.
  intros H. unfold write32, store.
  rewrite !list_lookup_insert_ne by lia. reflexivity.
Qed.

Ltac lookup_written :=
  rewrite ?list_lookup_insert_ne by lia;
  rewrite list_lookup_insert_eq by (rewrite ?length_insert; lia).

Lemma read16_write16_same (buf : list Z) (out : nat) (v : Z) :
  is_u16 v -> (out + 2 <= length buf)%nat ->
  run (read16 (Z.of_nat out)) (write16 buf out v) = Value v.
Proof.
  intros Hv Hlen.
  rewrite (run_read16_bytes _ _ (Z.land v 255)
             (Z.land (Z.shiftr v 8) 255)).
  - rewrite le16_recompose by exact Hv. reflexivity.
  - lia.
  - replace (Z.to_nat (Z.of_nat out)) with (out + 0)%nat by lia.
    unfold write16, store. lookup_written. reflexivity.
  - replace (Z.to_nat (Z.of_nat out + 1)) with (out + 1)%nat by lia.
    unfold write16, store. lookup_written. reflexivity.
Qed.

Lemma read32_write32_same (buf : list Z) (out : nat) (v : Z) :
  is_u32 v -> (out + 4 <= length buf)%nat ->
  run (read32 (Z.of_nat out)) (write32 buf out v) = Value v.
Proof.
  intros Hv Hlen.
  rewrite (run_read32_bytes _ _ (Z.land (Z.shiftr v 0) 255)
             (Z.land (Z.shiftr v 8) 255) (Z.land (Z.shiftr v 16) 255)
             (Z.land (Z.shiftr v 24) 255)).
  - rewrite le32_recompose by exact Hv. reflexivity.
  - lia.
  - replace (Z.to_nat (Z.of_nat out)) with (out + 0)%nat by lia.
    unfold write32, store. lookup_written. reflexivity.
  - replace (Z.to_nat (Z.of_nat out + 1)) with (out + 1)%nat by lia.
    unfold write32, store. lookup_written. reflexivity.
  - replace (Z.to_nat (Z.of_nat out + 2)) with (out + 2)%nat by lia.
    unfold write32, store. lookup_written. reflexivity.
  - replace (Z.to_nat (Z.of_nat out + 3)) with (out + 3)%nat by lia.
    unfold write32, store. lookup_written. reflexivity.
Qed.

(** A decoder only depends on the bytes it dereferences. *)
Lemma run_ext {A : Type} (m : Dec A) (buf1 buf2 : list Z) :
  (forall off, In off (touched m buf1) ->
               buf1 !! Z.to_nat off = buf2 !! Z.to_nat off) ->
  run m buf1 = run m buf2.
Proof.
  induction m as [a | e | off k IH |]; intros H; cbn [run]; try reflexivity.
  cbn [touched] in H.
  destruct (Z.ltb_spec off 0); [reflexivity |].
  rewrite <- (H off) by (left; reflexivity).
  destruct (buf1 !! Z.to_nat off) as [b |] eqn:E; [| reflexivity].
  apply IH. intros off' Hin. apply H. right. exact Hin.
Qed.

Lemma touched_bind_deref {A : Type} (off : Z) (f : Z -> Dec A)
  (buf : list Z) :
  touched (bind (deref off) f) buf
  = off :: (if off <? 0 then []
            else match buf !! Z.to_nat off with
                 | Some b => touched (f b) buf
                 | None => []
                 end).
Proof. reflexivity. Qed.

Lemma touched_read16 (buf : list Z) (off off' : Z) :
  In off' (touched (read16 off) buf) -> off <= off' < off + 2.
Proof.
  unfold read16. rewrite touched_bind_deref.
  intros [<- | H]; [lia |].
  destruct (off <? 0); [destruct H |].
  destruct (buf !! Z.to_nat off); [| destruct H].
  rewrite touched_bind_deref in H. destruct H as [<- | H]; [lia |].
  destruct (off + 1 <? 0); [destruct H |].
  destruct (buf !! Z.to_nat (off + 1)); destruct H.
Qed.

Lemma touched_read32 (buf : list Z) (off off' : Z) :
  In off' (touched (read32 off) buf) -> off <= off' < off + 4.
Proof.
  unfold read32. rewrite touched_bind_deref.
  intros [<- | H]; [lia |].
  destruct (off <? 0); [destruct H |].
  destruct (buf !! Z.to_nat off); [| destruct H].
  rewrite touched_bind_deref in H. destruct H as [<- | H]; [lia |].
  destruct (off + 1 <? 0); [destruct H |].
  destruct (buf !! Z.to_nat (off + 1)); [| destruct H].
  rewrite touched_bind_deref in H. destruct H as [<- | H]; [lia |].
  destruct (off + 2 <? 0); [destruct H |].
  destruct (buf !! Z.to_nat (off + 2)); [| destruct H].
  rewrite touched_bind_deref in H. destruct H as [<- | H]; [lia |].
  destruct (off + 3 <? 0); [destruct H |].
  destruct (buf !! Z.to_nat (off + 3)); destruct H.
Qed.

(** X7.  [write16] changes the two bytes at its output position and no
    other, keeps the buffer length, and [read16] at that position returns
    the 16-bit value written; a [read16] of two bytes outside of the
    written range is unaffected. *)
Theorem read16_write16 (buf : list Z) (out : nat) (v : Z) :
  length (write16 buf out v) = length buf /\
  (forall i : nat,
      ~ (out <= i < out + 2)%nat -> write16 buf out v !! i = buf !! i) /\
  (is_u16 v -> (out + 2 <= length buf)%nat ->
   run (read16 (Z.of_nat out)) (write16 buf out v) = Value v) /\
  (forall off : Z,
      0 <= off -> off + 2 <= Z.of_nat out \/ Z.of_nat out + 2 <= off ->
      run (read16 off) (write16 buf out v) = run (read16 off) buf).
Proof.
  split; [apply length_write16 |].
  split; [apply write16_frame |].
  split; [apply read16_write16_same |].
  intros off H0 Hdisj. apply run_ext. intros off' Hin.
  apply touched_read16 in Hin. apply write16_frame. lia.
Qed.

Lemma read16_write16_witness :
  run (read16 3) (write16 [9; 9; 9; 9; 9; 9] 3 0xBEEF) = Value 0xBEEF /\
  run (read16 0) (write16 [1; 2; 9; 9; 9; 9] 3 0xBEEF)
  = run (read16 0) [1; 2; 9; 9; 9; 9].
Proof.
  destruct (read16_write16 [9; 9; 9; 9; 9; 9] 3 0xBEEF) as (_ & _ & H3 & _).
  destruct (read16_write16 [1; 2; 9; 9; 9; 9] 3 0xBEEF) as (_ & _ & _ & H4).
  split.
  - apply H3; [unfold is_u16; lia | simpl; lia].
  - apply H4; lia.
Defined.

(** X8.  [write32] changes the four bytes at its output position and no
    other, keeps the buffer length, and [read32] at that position returns
    the 32-bit value written; a [read32] of four bytes outside of the
    written range is unaffected. *)
Theorem read32_write32 (buf : list Z) (out : nat) (v : Z) :
  length (write32 buf out v) = length buf /\
  (forall i : nat,
      ~ (out <= i < out + 4)%nat -> write32 buf out v !! i = buf !! i) /\
  (is_u32 v -> (out + 4 <= length buf)%nat ->
   run (read32 (Z.of_nat out)) (write32 buf out v) = Value v) /\
  (forall off : Z,
      0 <= off -> off + 4 <= Z.of_nat out \/ Z.of_nat out + 4 <= off ->
      run (read32 off) (write32 buf out v) = run (read32 off) buf).
Proof.
  split; [apply length_write32 |].
  split; [apply write32_frame |].
  split; [apply read32_write32_same |].
  intros off H0 Hdisj. apply run_ext. intros off' Hin.
  apply touched_read32 in Hin. apply write32_frame. lia.
Qed.

Lemma read32_write32_witness :
  run (read32 1) (write32 [9; 9; 9; 9; 9; 9] 1 0xDEADBEEF) = Value 0xDEADBEEF
  /\
  run (read32 0) (write32 [1; 2; 3; 4; 9; 9; 9; 9] 4 0xDEADBEEF)
  = run (read32 0) [1; 2; 3; 4; 9; 9; 9; 9].
Proof.
  destruct (read32_write32 [9; 9; 9; 9; 9; 9] 1 0xDEADBEEF) as (_ & _ & H3 & _).
  destruct (read32_write32 [1; 2; 3; 4; 9; 9; 9; 9] 4 0xDEADBEEF)
    as (_ & _ & _ & H4).
  split.
  - apply H3; [unfold is_u32; lia | simpl; lia].
  - apply H4; lia.
Defined.

(** ** Encoders write their own bytes only *)

Section Locality.
Variable enc : list Z -> nat -> list Z.
Variable size : nat.
Hypothesis enc_shift :
  forall (a : Z) (buf : list Z) (out : nat),
    enc (a :: buf) (S out) = a :: enc buf out.
Hypothesis enc_overwrite :
  forall mid post : list Z,
    length mid = size -> enc (mid ++ post) 0 = enc (replicate size 0) 0 ++ post.

Lemma enc_local (out : nat) :
  forall buf : list Z,
    (out + size <= length buf)%nat ->
    enc buf out
    = take out buf ++ enc (replicate size 0) 0 ++ drop (out + size) buf.
Proof.
  induction out as [| out IH]; intros buf H.
  - rewrite <- (take_drop size buf) at 1.
    rewrite enc_overwrite by (rewrite length_take; lia). reflexivity.
  - destruct buf as [| a buf]; [cbn [length] in H; lia |].
    rewrite enc_shift. cbn [take drop Nat.add app].
    rewrite IH by (cbn [length] in H; lia). reflexivity.
Qed.
End Locality.

Ltac encoder_local n :=
  intros x buf out H;
  apply (enc_local _ n);
  [ intros; reflexivity
  | let mid := fresh "mid" in
    let post := fresh "post" in
    let Hmid := fresh "Hmid" in
    intros mid post Hmid; explode_buffer mid Hmid; reflexivity
  | exact H ].

(** X9.  Each fixed-size encoder writes exactly [SIZE] bytes at its output
    position: the bytes before and after are left as they were, and the
    bytes written do not depend on what the buffer held. *)
Theorem marshal_writes_only_its_bytes :
  (forall (x : BootMode.t) (buf : list Z) (out : nat),
      (out + 1 <= length buf)%nat ->
      BootMode.marshal x buf out
      = take out buf ++ BootMode.marshal x (replicate 1 0) 0
        ++ drop (out + 1) buf) /\
  (forall (x : RestoreFactorySettings.t) (buf : list Z) (out : nat),
      (out + 4 <= length buf)%nat ->
      RestoreFactorySettings.marshal x buf out
      = take out buf ++ RestoreFactorySettings.marshal x (replicate 4 0) 0
        ++ drop (out + 4) buf) /\
  (forall (x : HotStartReset.t) (buf : list Z) (out : nat),
      (out + 4 <= length buf)%nat ->
      HotStartReset.marshal x buf out
      = take out buf ++ HotStartReset.marshal x (replicate 4 0) 0
        ++ drop (out + 4) buf) /\
  (forall (x : ColdStartReset.t) (buf : list Z) (out : nat),
      (out + 4 <= length buf)%nat ->
      ColdStartReset.marshal x buf out
      = take out buf ++ ColdStartReset.marshal x (replicate 4 0) 0
        ++ drop (out + 4) buf) /\
  (forall (x : PacketTimerPeriod.t) (buf : list Z) (out : nat),
      (out + 4 <= length buf)%nat ->
      PacketTimerPeriod.marshal x buf out
      = take out buf ++ PacketTimerPeriod.marshal x (replicate 4 0) 0
        ++ drop (out + 4) buf) /\
  (forall (x : BaudRates.t) (buf : list Z) (out : nat),
      (out + 17 <= length buf)%nat ->
      BaudRates.marshal x buf out
      = take out buf ++ BaudRates.marshal x (replicate 17 0) 0
        ++ drop (out + 17) buf) /\
  (forall (x : Alignment.t) (buf : list Z) (out : nat),
      (out + 73 <= length buf)%nat ->
      Alignment.marshal x buf out
      = take out buf ++ Alignment.marshal x (replicate 73 0) 0
        ++ drop (out + 73) buf) /\
  (forall (x : FilterOptions.t) (buf : list Z) (out : nat),
      (out + 17 <= length buf)%nat ->
      FilterOptions.marshal x buf out
      = take out buf ++ FilterOptions.marshal x (replicate 17 0) 0
        ++ drop (out + 17) buf) /\
  (forall (x : MagneticCalibrationValues.t) (buf : list Z) (out : nat),
      (out + 49 <= length buf)%nat ->
      MagneticCalibrationValues.marshal x buf out
      = take out buf ++ MagneticCalibrationValues.marshal x (replicate 49 0) 0
        ++ drop (out + 49) buf) /\
  (forall (x : MagneticCalibrationConfiguration.t) (buf : list Z) (out : nat),
      (out + 1 <= length buf)%nat ->
      MagneticCalibrationConfiguration.marshal x buf out
      = take out buf
        ++ MagneticCalibrationConfiguration.marshal x (replicate 1 0) 0
        ++ drop (out + 1) buf).
Proof.
  repeat apply conj.
  - encoder_local 1%nat.
  - encoder_local 4%nat.
  - encoder_local 4%nat.
  - encoder_local 4%nat.
  - encoder_local 4%nat.
  - encoder_local 17%nat.
  - encoder_local 73%nat.
  - encoder_local 17%nat.
  - encoder_local 49%nat.
  - encoder_local 1%nat.
Qed.

Lemma marshal_writes_only_its_bytes_witness :
  BaudRates.marshal (BaudRates.mk 1 0x04030201 0x08070605 0x0c0b0a09 0)
    (replicate 20 9) 2
  = [9; 9] ++ [1; 1; 2; 3; 4; 5; 6; 7; 8; 9; 10; 11; 12; 0; 0; 0; 0] ++ [9].
Proof.
  destruct marshal_writes_only_its_bytes as (_ & _ & _ & _ & _ & H & _).
  apply (H (BaudRates.mk 1 0x04030201 0x08070605 0x0c0b0a09 0)
           (replicate 20 9) 2%nat).
  simpl. lia.
Defined.

(** ** Request *)




(** ** PacketPeriods: encoding a schedule and decoding it again *)

Lemma length_marshal_loop (periods : list (Z * Z)) :
  forall (buf : list Z) (out : nat),
    length (PacketPeriods.marshal_loop buf out periods) = length buf.
Proof.
  induction periods as [| [k v] ps IH]; intros buf out;
    cbn [PacketPeriods.marshal_loop]; [reflexivity |].
  rewrite IH, length_write32. unfold store. apply length_insert.
Qed.

Lemma marshal_loop_frame (periods : list (Z * Z)) :
  forall (buf : list Z) (out i : nat),
    (i < out)%nat ->
    PacketPeriods.marshal_loop buf out periods !! i = buf !! i.
Proof.
  induction periods as [| [k v] ps IH]; intros buf out i H;
    cbn [PacketPeriods.marshal_loop]; [reflexivity |].
  rewrite IH by lia. rewrite write32_frame by lia.
  unfold store. apply list_lookup_insert_ne. lia.
Qed.

Lemma PacketPeriods_loop_roundtrip (periods : list (Z * Z)) :
  forall (buf : list Z) (out : nat) (result : gmap Z Z) (bound : nat),
    Forall PacketPeriods.valid_period periods ->
    length buf = (out + 5 * length periods)%nat ->
    (length periods < bound)%nat ->
    run (PacketPeriods.unmarshal_loop bound (Z.of_nat out)
           (Z.of_nat (length buf)) result)
        (PacketPeriods.marshal_loop buf out periods)
    = Value (fold_left set_period periods result).
Proof.
  induction periods as [| [k v] ps IH];
    intros buf out result bound Hvalid Hlen Hbound;
    (destruct bound as [| bound]; [cbn [length] in Hbound; lia |]);
    cbn [PacketPeriods.unmarshal_loop PacketPeriods.marshal_loop fold_left
         length] in *.
  - destruct (Z.eqb_spec (Z.of_nat out) (Z.of_nat (length buf))); [| lia].
    reflexivity.
  - destruct (Z.eqb_spec (Z.of_nat out) (Z.of_nat (length buf))); [lia |].
    cbn [negb].
    apply Forall_cons in Hvalid. destruct Hvalid as [[Hk Hv] Hvalid].
    cbn [fst snd] in Hk, Hv.
    set (buf' := write32 (store buf out 0 k) (out + 1) v).
    assert (Hlen' : length buf' = length buf).
    { unfold buf'. rewrite length_write32. unfold store.
      apply length_insert. }
    set (B := PacketPeriods.marshal_loop buf' (out + 5) ps).
    assert (Hread : run (read32 (Z.of_nat out + 1)) B = Value v).
    { rewrite (run_ext _ B buf').
      - unfold buf'. replace (Z.of_nat out + 1) with (Z.of_nat (out + 1)) by lia.
        apply read32_write32_same; [exact Hv |].
        unfold store. rewrite length_insert. lia.
      - intros off Hin. apply touched_read32 in Hin.
        unfold B. apply marshal_loop_frame. lia. }
    assert (Hkey : B !! Z.to_nat (Z.of_nat out) = Some k).
    { unfold B. rewrite marshal_loop_frame by lia.
      unfold buf'. rewrite write32_frame by lia.
      unfold store. replace (Z.to_nat (Z.of_nat out)) with (out + 0)%nat by lia.
      apply list_lookup_insert_eq. lia. }
    rewrite run_bind, Hread.
    rewrite run_bind, (run_deref_Some B (Z.of_nat out) k) by (lia || exact Hkey).
    unfold PacketPeriods.PERIOD_SIZE.
    replace (Z.of_nat out + 5) with (Z.of_nat (out + 5)) by lia.
    rewrite <- Hlen'. unfold B. apply IH; [exact Hvalid | lia | lia].
Qed.

Lemma fold_set_period_NoDup (periods : list (Z * Z)) :
  forall m : gmap Z Z,
    NoDup periods.*1 ->
    (forall k, k ∈ periods.*1 -> m !! k = None) ->
    fold_left set_period periods m = list_to_map periods ∪ m.
Proof.
  induction periods as [| [k v] ps IH]; intros m Hnd Hfresh;
    cbn [fold_left].
  - change (list_to_map []) with (∅ : gmap Z Z).
    rewrite (left_id_L ∅ (∪)). reflexivity.
  - apply NoDup_cons in Hnd. destruct Hnd as [Hk Hnd].
    rewrite IH.
    + unfold set_period. cbn [fst snd].
      change (list_to_map ((k, v) :: ps))
        with (<[k := v]> (list_to_map ps : gmap Z Z)).
      rewrite <- insert_union_r by (apply not_elem_of_list_to_map_1; exact Hk).
      rewrite insert_union_l. reflexivity.
    + exact Hnd.
    + intros k' Hk'. unfold set_period. cbn [fst snd].
      rewrite lookup_insert_ne.
      * apply Hfresh. right. exact Hk'.
      * intros ->. contradiction.
Qed.

(** X11.  Decoding what [PacketPeriods::marshal] wrote for a range of
    (id, period) pairs gives the map that sets them in order, so a later
    pair overrides an earlier one with the same id; the two leading bytes
    do not enter the result.  For a range without repeated ids, as the
    iteration over a [std::map] is, the result is that map. *)
Theorem PacketPeriods_marshal_unmarshal
  (x : PacketPeriods.t) (periods : list (Z * Z)) (buf : list Z) :
  Forall PacketPeriods.valid_period periods ->
  length buf = (2 + 5 * length periods)%nat ->
  decode_range PacketPeriods.unmarshal (PacketPeriods.marshal x buf 0 periods)
  = Value (fold_left set_period periods ∅) /\
  (NoDup periods.*1 ->
   decode_range PacketPeriods.unmarshal (PacketPeriods.marshal x buf 0 periods)
   = Value (list_to_map periods)).
Proof.
  intros Hvalid Hlen.
  assert (Hmain :
    decode_range PacketPeriods.unmarshal (PacketPeriods.marshal x buf 0 periods)
    = Value (fold_left set_period periods ∅)).
  { unfold decode_range, PacketPeriods.marshal.
    set (buf' := store (store buf 0 0 (PacketPeriods.permanent x)) 0 1
                   (PacketPeriods.clear_existing x)).
    assert (Hlen' : length buf' = length buf).
    { unfold buf', store. rewrite !length_insert. reflexivity. }
    rewrite length_marshal_loop, Hlen'.
    unfold PacketPeriods.unmarshal, PacketPeriods.MIN_SIZE.
    destruct (Z.ltb_spec (Z.of_nat (length buf)) 2); [lia |].
    assert (E : Z.rem (Z.of_nat (length buf) - 2) PacketPeriods.PERIOD_SIZE = 0).
    { apply Z.rem_divide; [discriminate |].
      exists (Z.of_nat (length periods)).
      unfold PacketPeriods.PERIOD_SIZE. lia. }
    rewrite E. cbn [Z.eqb negb].
    rewrite <- Hlen'.
    apply (PacketPeriods_loop_roundtrip periods buf' 2);
      [exact Hvalid | lia | lia]. }
  split; [exact Hmain |].
  intros Hnd. rewrite Hmain. f_equal.
  rewrite fold_set_period_NoDup; [| exact Hnd | intros; apply lookup_empty].
  apply (right_id_L ∅ (∪)).
Qed.

Lemma PacketPeriods_marshal_unmarshal_witness :
  decode_range PacketPeriods.unmarshal
    (PacketPeriods.marshal (PacketPeriods.mk 1 1) (replicate 12 0) 0
       [(1, 0x04030201); (2, 0x08070605)])
  = Value (list_to_map [(1, 0x04030201); (2, 0x08070605)]).
Proof.
  assert (Hvalid : Forall PacketPeriods.valid_period
                     [(1, 0x04030201); (2, 0x08070605)]).
  { repeat constructor; unfold is_u8, is_u32; simpl; lia. }
  destruct (PacketPeriods_marshal_unmarshal (PacketPeriods.mk 1 1)
              [(1, 0x04030201); (2, 0x08070605)] (replicate 12 0)
              Hvalid eq_refl) as [_ H].
  apply H. cbn [fmap list_fmap fst].
  apply NoDup_cons. split; [| apply NoDup_singleton].
  intros Hin. apply list_elem_of_singleton in Hin. discriminate.
Defined.

(** ** Decoding a received buffer and encoding the result *)

Ltac byte_bits :=
  repeat match goal with
         | |- context [Z.testbit ?b ?idx] =>
             rewrite (Z.testbit_neg_r b idx) by lia
         | H : is_u8 ?b |- context [Z.testbit ?b ?idx] =>
             rewrite (testbit_above 8 b idx) by (lia || exact H)
         end.

Ltac extract_byte :=
  apply Z.bits_inj'; intros i Hi;
  rewrite testbit_low_byte by lia;
  rewrite ?Z.shiftr_spec by lia;
  unfold u16, u32;
  rewrite ?Z.testbit_mod_pow2 by lia;
  rewrite ?Z.lor_spec;
  rewrite ?Z.testbit_mod_pow2 by lia;
  rewrite ?Z.shiftl_spec by lia;
  destruct (Z.ltb_spec i 8);
  [ split_index; byte_bits; cbn [andb orb]; rewrite ?orb_false_r;
    first [ reflexivity | f_equal; lia ]
  | byte_bits; reflexivity ].

Lemma le16_byte0 (b0 b1 : Z) :
  is_u8 b0 -> Z.land (u16 (Z.lor b0 (Z.shiftl b1 8))) 255 = b0.
Proof. intros H0. extract_byte. Qed.

Lemma le16_byte1 (b0 b1 : Z) :
  is_u8 b0 -> is_u8 b1 ->
  Z.land (Z.shiftr (u16 (Z.lor b0 (Z.shiftl b1 8))) 8) 255 = b1.
Proof. intros H0 H1. extract_byte. Qed.

Lemma le32_byte0 (b0 b1 b2 b3 : Z) :
  is_u8 b0 ->
  Z.land (Z.shiftr (Z.lor (Z.lor (Z.lor b0 (u32 (Z.shiftl b1 8)))
                                 (u32 (Z.shiftl b2 16)))
                          (u32 (Z.shiftl b3 24))) 0) 255 = b0.
Proof. intros H0. rewrite Z.shiftr_0_r. extract_byte. Qed.

Lemma le32_byte1 (b0 b1 b2 b3 : Z) :
  is_u8 b0 -> is_u8 b1 ->
  Z.land (Z.shiftr (Z.lor (Z.lor (Z.lor b0 (u32 (Z.shiftl b1 8)))
                                 (u32 (Z.shiftl b2 16)))
                          (u32 (Z.shiftl b3 24))) 8) 255 = b1.
Proof. intros H0 H1. extract_byte. Qed.

Lemma le32_byte2 (b0 b1 b2 b3 : Z) :
  is_u8 b0 -> is_u8 b1 -> is_u8 b2 ->
  Z.land (Z.shiftr (Z.lor (Z.lor (Z.lor b0 (u32 (Z.shiftl b1 8)))
                                 (u32 (Z.shiftl b2 16)))
                          (u32 (Z.shiftl b3 24))) 16) 255 = b2.
Proof. intros H0 H1 H2. extract_byte. Qed.

Lemma le32_byte3 (b0 b1 b2 b3 : Z) :
  is_u8 b0 -> is_u8 b1 -> is_u8 b2 -> is_u8 b3 ->
  Z.land (Z.shiftr (Z.lor (Z.lor (Z.lor b0 (u32 (Z.shiftl b1 8)))
                                 (u32 (Z.shiftl b2 16)))
                          (u32 (Z.shiftl b3 24))) 24) 255 = b3.
Proof. intros H0 H1 H2 H3. extract_byte. Qed.

Lemma le32_is_u32 (b0 b1 b2 b3 : Z) :
  is_u8 b0 ->
  is_u32 (Z.lor (Z.lor (Z.lor b0 (u32 (Z.shiftl b1 8)))
                       (u32 (Z.shiftl b2 16)))
                (u32 (Z.shiftl b3 24))).
Proof.
  intros H0.
  set (v := Z.lor _ _).
  assert (E : v mod 2 ^ 32 = v).
  { subst v. apply Z.bits_inj'. intros i Hi.
    rewrite Z.testbit_mod_pow2 by lia.
    destruct (Z.ltb_spec i 32); [reflexivity |].
    rewrite !Z.lor_spec. unfold u32. rewrite !Z.testbit_mod_pow2 by lia.
    rewrite (testbit_above 8 b0 i) by (lia || exact H0).
    destruct (Z.ltb_spec i 32); [lia | reflexivity]. }
  unfold is_u32. rewrite <- E. apply Z.mod_pos_bound. lia.
Qed.

Lemma u16_is_u16 (x : Z) : is_u16 (u16 x).
Proof. unfold is_u16, u16. apply Z.mod_pos_bound. lia. Qed.


Ltac bytes_of H :=
  repeat (apply Forall_cons in H; destruct H as [? H]); clear H.

Ltac recombine :=
  rewrite ?le16_byte0, ?le16_byte1, ?le32_byte0, ?le32_byte1, ?le32_byte2,
    ?le32_byte3 by assumption.

Lemma is_u8_0 : is_u8 0.
Proof. unfold is_u8. lia. Qed.

Lemma is_u32_0 : is_u32 0.
Proof. unfold is_u32. lia. Qed.

Ltac in_range :=
  first [ assumption | apply is_u8_0 | apply is_u32_0 | apply u16_is_u16
        | apply le32_is_u32; assumption ].

Ltac array_in_range :=
  split; [reflexivity | repeat (constructor; [in_range |]); constructor].

Ltac fields_in_range :=
  repeat (split; [first [in_range | array_in_range] |]);
  first [in_range | array_in_range].

(** X12.  Decoding a buffer of bytes of the packet size gives a value
    whose fields fit their C types, and encoding that value writes the
    received bytes back, with the [permanent] byte (and for [BaudRates] the
    four reserved bytes) zeroed. *)
Theorem unmarshal_marshal_roundtrip (buf out : list Z) :
  Forall is_u8 buf ->
  (length buf = 1%nat -> length out = 1%nat ->
   exists v, decode_range BootMode.unmarshal buf = Value v /\
             BootMode.valid v /\ BootMode.marshal v out 0 = buf) /\
  (length buf = 4%nat -> length out = 4%nat ->
   exists v, decode_range PacketTimerPeriod.unmarshal buf = Value v /\
             PacketTimerPeriod.valid v /\
             PacketTimerPeriod.marshal v out 0 = <[0%nat := 0]> buf) /\
  (length buf = 17%nat -> length out = 17%nat ->
   exists v, decode_range BaudRates.unmarshal buf = Value v /\
             BaudRates.valid v /\
             BaudRates.marshal v out 0
             = <[0%nat := 0]> (take 13 buf) ++ [0; 0; 0; 0]) /\
  (length buf = 73%nat -> length out = 73%nat ->
   exists v, decode_range Alignment.unmarshal buf = Value v /\
             Alignment.valid v /\
             Alignment.marshal v out 0 = <[0%nat := 0]> buf) /\
  (length buf = 17%nat -> length out = 17%nat ->
   exists v, decode_range FilterOptions.unmarshal buf = Value v /\
             FilterOptions.valid v /\
             FilterOptions.marshal v out 0 = <[0%nat := 0]> buf) /\
  (length buf = 49%nat -> length out = 49%nat ->
   exists v, decode_range MagneticCalibrationValues.unmarshal buf = Value v /\
             MagneticCalibrationValues.valid v /\
             MagneticCalibrationValues.marshal v out 0 = <[0%nat := 0]> buf).
Proof.
  intros Hbytes.
  repeat apply conj; intros Hlen Hout;
    explode_buffer buf Hlen; explode_buffer out Hout; bytes_of Hbytes;
    (eexists; split; [run_decoder; reflexivity |]).
  - split; [assumption | reflexivity].
  - split; [fields_in_range |].
    run_decoder. recombine. reflexivity.
  - split; [fields_in_range |].
    run_decoder. recombine. reflexivity.
  - split; [fields_in_range |].
    run_decoder. recombine. reflexivity.
  - split; [fields_in_range |].
    reflexivity.
  - split; [fields_in_range |].
    run_decoder. recombine. reflexivity.
Qed.

Lemma unmarshal_marshal_roundtrip_witness :
  exists v,
    decode_range BaudRates.unmarshal
      [1; 1; 2; 3; 4; 5; 6; 7; 8; 9; 10; 11; 12; 7; 7; 7; 7] = Value v /\
    BaudRates.valid v /\
    BaudRates.marshal v (replicate 17 9) 0
    = [0; 1; 2; 3; 4; 5; 6; 7; 8; 9; 10; 11; 12; 0; 0; 0; 0].
Proof.
  assert (Hbytes : Forall is_u8
                     [1; 1; 2; 3; 4; 5; 6; 7; 8; 9; 10; 11; 12; 7; 7; 7; 7]).
  { repeat (constructor; [unfold is_u8; lia |]). constructor. }
  destruct (unmarshal_marshal_roundtrip
              [1; 1; 2; 3; 4; 5; 6; 7; 8; 9; 10; 11; 12; 7; 7; 7; 7]
              (replicate 17 9) Hbytes) as (_ & _ & H & _).
  apply H; reflexivity.
Defined.

(** ** What the configuration decoders do not read *)

Ltac decoder_ignores buf :=
  let Hlen := fresh "Hlen" in
  let b := fresh "b" in
  intros Hlen b; explode_buffer buf Hlen; split; run_decoder;
  [ reflexivity
  | repeat (constructor; [discriminate |]); constructor ].

(** X17.  The decoders of the five configuration packets never
    dereference [begin[0]]: the byte at the [permanent] position can be
    anything without changing what is decoded. *)
Theorem unmarshal_never_reads_permanent (buf : list Z) :
  (length buf = 4%nat -> forall b : Z,
   decode_range PacketTimerPeriod.unmarshal (<[0%nat := b]> buf)
   = decode_range PacketTimerPeriod.unmarshal buf /\
   Forall (fun off => off <> 0) (touched (PacketTimerPeriod.unmarshal 4) buf))
  /\
  (length buf = 17%nat -> forall b : Z,
   decode_range BaudRates.unmarshal (<[0%nat := b]> buf)
   = decode_range BaudRates.unmarshal buf /\
   Forall (fun off => off <> 0) (touched (BaudRates.unmarshal 17) buf)) /\
  (length buf = 73%nat -> forall b : Z,
   decode_range Alignment.unmarshal (<[0%nat := b]> buf)
   = decode_range Alignment.unmarshal buf /\
   Forall (fun off => off <> 0) (touched (Alignment.unmarshal 73) buf)) /\
  (length buf = 17%nat -> forall b : Z,
   decode_range FilterOptions.unmarshal (<[0%nat := b]> buf)
   = decode_range FilterOptions.unmarshal buf /\
   Forall (fun off => off <> 0) (touched (FilterOptions.unmarshal 17) buf)) /\
  (length buf = 49%nat -> forall b : Z,
   decode_range MagneticCalibrationValues.unmarshal (<[0%nat := b]> buf)
   = decode_range MagneticCalibrationValues.unmarshal buf /\
   Forall (fun off => off <> 0)
          (touched (MagneticCalibrationValues.unmarshal 49) buf)).
Proof.
  repeat apply conj.
  - decoder_ignores buf.
  - decoder_ignores buf.
  - decoder_ignores buf.
  - decoder_ignores buf.
  - decoder_ignores buf.
Qed.

Lemma unmarshal_never_reads_permanent_witness :
  decode_range PacketTimerPeriod.unmarshal (<[0%nat := 1]> [0; 2; 3; 4])
  = decode_range PacketTimerPeriod.unmarshal [0; 2; 3; 4].
Proof.
  destruct (unmarshal_never_reads_permanent [0; 2; 3; 4]) as (H & _).
  apply (H eq_refl 1).
Defined.

(** ** What the encoders store *)

Ltac byte_stored :=
  first [ assumption | apply land_255_is_u8 | apply is_u8_0 ].

Ltac stores_bytes :=
  run_decoder; repeat (constructor; [byte_stored |]); constructor.

(** X18.  The fixed-size encoders store byte values only: for a value
    whose fields fit their C types, every one of the [SIZE] bytes written
    is in 0..255. *)
Theorem marshal_stores_bytes :
  (forall x : BootMode.t,
      BootMode.valid x ->
      Forall is_u8 (BootMode.marshal x (replicate 1 0) 0)) /\
  (forall x : PacketTimerPeriod.t,
      PacketTimerPeriod.valid x ->
      Forall is_u8 (PacketTimerPeriod.marshal x (replicate 4 0) 0)) /\
  (forall x : BaudRates.t,
      BaudRates.valid x ->
      Forall is_u8 (BaudRates.marshal x (replicate 17 0) 0)) /\
  (forall x : Alignment.t,
      Alignment.valid x ->
      Forall is_u8 (Alignment.marshal x (replicate 73 0) 0)) /\
  (forall x : FilterOptions.t,
      FilterOptions.valid x ->
      Forall is_u8 (FilterOptions.marshal x (replicate 17 0) 0)) /\
  (forall x : MagneticCalibrationValues.t,
      MagneticCalibrationValues.valid x ->
      Forall is_u8 (MagneticCalibrationValues.marshal x (replicate 49 0) 0)).
Proof.
  repeat apply conj.
  - intros [b] Hb. cbn in Hb. stores_bytes.
  - intros [p u per] (Hp & Hu & Hper). cbn in Hp, Hu. stores_bytes.
  - intros [p pp gp aux res] (Hp & _). cbn in Hp. stores_bytes.
  - intros [p dcm gnss odo ext] (Hp & _). cbn in Hp. stores_bytes.
  - intros [p vt gn r0 aa vh rd ma r1]
      (Hp & Hvt & Hgn & Hr0 & Haa & Hvh & Hrd & Hma & Hlen & Hr1).
    cbn in Hp, Hvt, Hgn, Hr0, Haa, Hvh, Hrd, Hma, Hlen, Hr1.
    explode_buffer r1 Hlen. bytes_of Hr1. stores_bytes.
  - intros [p hard soft] (Hp & _). cbn in Hp. stores_bytes.
Qed.

Lemma marshal_stores_bytes_witness :
  Forall is_u8
    (PacketTimerPeriod.marshal (PacketTimerPeriod.mk 1 2 0x0403)
       (replicate 4 0) 0).
Proof.
  apply marshal_stores_bytes.
  unfold PacketTimerPeriod.valid, is_u8, is_u16. simpl. lia.
Defined.

(** ** Decoders on input of the right size *)

(** X13.  On a buffer of exactly its [SIZE] every fixed-size decoder
    returns a value, and every byte it dereferences lies inside the
    buffer. *)
Theorem fixed_decoders_accept_exact_size (p : fixed_packet) (buf : list Z) :
  Z.of_nat (length buf) = SIZE_of p ->
  (exists v, decode_range (unmarshal_of p) buf = Value v) /\
  Forall (fun off => 0 <= off < SIZE_of p)
         (touched (unmarshal_of p (Z.of_nat (length buf))) buf).
Proof. exact (unmarshal_of_exact_size p buf). Qed.

Lemma fixed_decoders_accept_exact_size_witness :
  (exists v, decode_range (unmarshal_of P_Status) [1; 2; 3; 4] = Value v) /\
  Forall (fun off => 0 <= off < 4)
         (touched (unmarshal_of P_Status 4) [1; 2; 3; 4]).
Proof.
  apply (fixed_decoders_accept_exact_size P_Status [1; 2; 3; 4]). reflexivity.
Defined.

Lemma DetailedSatellites_loop_records (buf : list Z) (k : nat) :
  forall (bound : nat) (begin : Z) (info : list SatelliteInfo.t),
    0 <= begin ->
    Z.of_nat (length buf) = begin + 7 * Z.of_nat k ->
    (k < bound)%nat ->
    exists recs,
      run (DetailedSatellites.unmarshal_loop bound begin
             (Z.of_nat (length buf)) info) buf = Value (info ++ recs) /\
      length recs = k /\
      forall j : nat,
        (j < k)%nat ->
        exists x, recs !! j = Some x /\
                  run (SatelliteInfo.unmarshal (begin + 7 * Z.of_nat j)) buf
                  = Value x.
Proof.
  induction k as [| k IH]; intros bound begin info H0 Hlen Hb;
    (destruct bound as [| bound]; [lia |]);
    cbn [DetailedSatellites.unmarshal_loop].
  - destruct (Z.eqb_spec begin (Z.of_nat (length buf))); [| lia].
    exists []. rewrite app_nil_r.
    split; [reflexivity |]. split; [reflexivity |]. intros j Hj. lia.
  - destruct (Z.eqb_spec begin (Z.of_nat (length buf))); [lia |].
    cbn [negb]. rewrite run_bind.
    destruct (run_SatelliteInfo buf begin) as [x Hx];
      [lia | unfold SatelliteInfo.SIZE; lia |].
    rewrite Hx. unfold SatelliteInfo.SIZE.
    destruct (IH bound (begin + 7) (info ++ [x]))
      as (recs & Hrun & Hn & Hrecs); [lia | lia | lia |].
    exists (x :: recs). rewrite Hrun, <- app_assoc.
    split; [reflexivity |]. split; [cbn [length]; lia |].
    intros [| j] Hj.
    + exists x. split; [reflexivity |].
      replace (begin + 7 * Z.of_nat 0) with begin by lia. exact Hx.
    + destruct (Hrecs j) as (y & Hy & Hrj); [lia |].
      exists y. split; [exact Hy |].
      replace (begin + 7 * Z.of_nat (S j)) with (begin + 7 + 7 * Z.of_nat j)
        by lia.
      exact Hrj.
Qed.

(** X14.  On a buffer of [7 * k] bytes [DetailedSatellites::unmarshal]
    returns the caller's vector followed by [k] records, the [j]-th being
    the [SatelliteInfo] decoded from the seven bytes at offset [7 * j]:
    the loop ends and stays inside the buffer. *)
Theorem DetailedSatellites_decodes_every_record
  (buf : list Z) (info : list SatelliteInfo.t) (k : nat) :
  length buf = (7 * k)%nat ->
  exists recs,
    decode_range (fun len => DetailedSatellites.unmarshal len info) buf
    = Value (info ++ recs) /\
    length recs = k /\
    forall j : nat,
      (j < k)%nat ->
      exists x, recs !! j = Some x /\
                run (SatelliteInfo.unmarshal (7 * Z.of_nat j)) buf = Value x.
Proof.
  intros H. unfold decode_range, DetailedSatellites.unmarshal.
  assert (E : Z.rem (Z.of_nat (length buf)) SatelliteInfo.SIZE = 0).
  { apply Z.rem_divide; [discriminate |]. exists (Z.of_nat k).
    unfold SatelliteInfo.SIZE. lia. }
  rewrite E. cbn [Z.eqb negb].
  destruct (DetailedSatellites_loop_records buf k
              (S (Z.to_nat (Z.of_nat (length buf)))) 0 info)
    as (recs & Hrun & Hn & Hrecs); [lia | lia | lia |].
  exists recs. split; [exact Hrun |]. split; [exact Hn |].
  intros j Hj. destruct (Hrecs j Hj) as (x & Hx & Hr).
  exists x. split; [exact Hx |]. exact Hr.
Qed.

Lemma DetailedSatellites_decodes_every_record_witness :
  exists recs,
    decode_range (fun len => DetailedSatellites.unmarshal len [])
      [1; 2; 3; 4; 2; 1; 5; 6; 7; 8; 9; 4; 3; 10] = Value ([] ++ recs) /\
    length recs = 2%nat /\
    forall j : nat,
      (j < 2)%nat ->
      exists x, recs !! j = Some x /\
                run (SatelliteInfo.unmarshal (7 * Z.of_nat j))
                    [1; 2; 3; 4; 2; 1; 5; 6; 7; 8; 9; 4; 3; 10] = Value x.
Proof.
  apply (DetailedSatellites_decodes_every_record
           [1; 2; 3; 4; 2; 1; 5; 6; 7; 8; 9; 4; 3; 10] [] 2).
  reflexivity.
Defined.

(** X15.  [SatelliteInfo::unmarshal] has no length check of its own: on a
    range that ends before its seventh byte it does not throw
    [length_error] but dereferences past the end. *)
Theorem SatelliteInfo_unmarshal_unchecked (buf : list Z) (begin : Z) :
  0 <= begin ->
  Z.of_nat (length buf) < begin + SatelliteInfo.SIZE ->
  run (SatelliteInfo.unmarshal begin) buf = OutOfBounds.
Proof.
  unfold SatelliteInfo.SIZE. intros H0 Hshort.
  unfold SatelliteInfo.unmarshal, read16, deref. cbn [bind run].
  repeat match goal with
         | |- context [?a <? 0] => destruct (Z.ltb_spec a 0); [lia |]
         | |- context [buf !! ?i] =>
             let E := fresh "E" in
             destruct (buf !! i) eqn:E;
             [apply lookup_lt_Some in E | reflexivity]
         end.
  lia.
Qed.

Lemma SatelliteInfo_unmarshal_unchecked_witness :
  run (SatelliteInfo.unmarshal 0) [1; 2; 3; 4; 2; 1] = OutOfBounds.
Proof.
  apply (SatelliteInfo_unmarshal_unchecked [1; 2; 3; 4; 2; 1] 0).
  - lia.
  - reflexivity.
Defined.

(** X16.  On a buffer of [2 + 5 * k] bytes [PacketPeriods::unmarshal]
    returns a map: its loop ends within the buffer, without a read past
    the end. *)
Theorem PacketPeriods_unmarshal_returns (buf : list Z) (k : nat) :
  length buf = (2 + 5 * k)%nat ->
  exists periods : gmap Z Z,
    decode_range PacketPeriods.unmarshal buf = Value periods.
Proof. exact (PacketPeriods_total buf k). Qed.

Lemma PacketPeriods_unmarshal_returns_witness :
  exists periods : gmap Z Z,
    decode_range PacketPeriods.unmarshal [0; 0; 7; 1; 0; 0; 0] = Value periods.
Proof.
  apply (PacketPeriods_unmarshal_returns [0; 0; 7; 1; 0; 0; 0] 1).
  reflexivity.
Defined.

(** ** PacketPeriods: the two leading bytes *)

Lemma touched_bind {A B : Type} (m : Dec A) (f : A -> Dec B) (buf : list Z) :
  touched (bind m f) buf
  = touched m buf ++ match run m buf with
                     | Value a => touched (f a) buf
                     | _ => []
                     end.
Proof.
  induction m as [a | e | off k IH |]; cbn [bind touched run app];
    try reflexivity.
  f_equal. destruct (off <? 0); [reflexivity |].
  destruct (buf !! Z.to_nat off) as [b |]; [apply IH | reflexivity].
Qed.

Lemma PacketPeriods_loop_touched (buf : list Z) (end_ : Z) (bound : nat) :
  forall (begin : Z) (result : gmap Z Z) (off : Z),
    In off (touched (PacketPeriods.unmarshal_loop bound begin end_ result) buf)
    -> begin <= off.
Proof.
  induction bound as [| bound IH]; intros begin result off;
    cbn [PacketPeriods.unmarshal_loop touched].
  - intros [].
  - destruct (begin =? end_); cbn [negb touched]; [intros [] |].
    rewrite touched_bind. intros Hin. apply in_app_or in Hin.
    destruct Hin as [Hin | Hin].
    + apply touched_read32 in Hin. lia.
    + destruct (run (read32 (begin + 1)) buf) as [v | | |];
        try (destruct Hin; fail).
      rewrite touched_bind_deref in Hin. destruct Hin as [<- | Hin]; [lia |].
      destruct (begin <? 0); [destruct Hin |].
      destruct (buf !! Z.to_nat begin) as [k |]; [| destruct Hin].
      apply IH in Hin. unfold PacketPeriods.PERIOD_SIZE in Hin. lia.
Qed.

(** X19.  [PacketPeriods::unmarshal] never dereferences the two leading
    bytes ([permanent] and [clear_existing]): whatever they are, the
    decoder returns, or throws, the same. *)
Theorem PacketPeriods_unmarshal_ignores_prefix (buf : list Z) (b0 b1 : Z) :
  decode_range PacketPeriods.unmarshal (<[0%nat := b0]> (<[1%nat := b1]> buf))
  = decode_range PacketPeriods.unmarshal buf.
Proof.
  unfold decode_range. rewrite !length_insert.
  unfold PacketPeriods.unmarshal.
  destruct (Z.of_nat (length buf) <? PacketPeriods.MIN_SIZE); [reflexivity |].
  destruct (negb _); [reflexivity |].
  symmetry. apply run_ext. intros off Hin.
  apply PacketPeriods_loop_touched in Hin.
  unfold PacketPeriods.MIN_SIZE in Hin.
  rewrite !list_lookup_insert_ne by lia. reflexivity.
Qed.
